(** * API Gerenciador de Tarefas e Projetos: the handlers of [API/app.py],
      the schemas of [schemas.py] and the tables of [banco_projetos.py]

    The development is a shallow embedding of the request path

      parsed JSON body -> marshmallow schema -> one SQL statement -> response

    Python objects are the inductive [value]; a dict is a [gmap string _];
    the SQLite file is a record of three tables; the handlers are written in
    a state-and-exception monad over a [world] that holds the committed
    database and the lines of [api.log], together with the number of
    connections opened and the trace of statements executed, which exist
    only to state what a handler did.

    Scope of the model.  The libraries are taken as Python 3.11, Flask 2.1,
    marshmallow 3 and the [sqlite3] module behave: [request.get_json()]
    raises 415 or 400 for a body that is not JSON, a schema without
    [class Meta] rejects unknown keys ([unknown = RAISE]), a [dump_only]
    field is not a load field, [int] reads at most 4300 digits, and an [int]
    outside the signed 64-bit range cannot be bound to a statement
    (OverflowError).  JSON numbers are integers (no floats).  Strings are
    UTF-8 text held in [string], their Python length being the number of
    code points ([Text.len]).  The grammars of [validate.Email], of ISO
    dates and of [int] are written out for ASCII text: what they accept here
    the libraries accept, and a statement that concludes a rejection from
    them assumes the text to be ASCII (the libraries also read non-ASCII
    word characters, digits and blanks, and retry a domain through IDNA).
    A [world] is the state between two requests with no connection open.  A
    handler that raises after [get_db_connection] never reaches
    [conn.close()]; when the exception is an [sqlite3.Error] of the
    statement, the open connection keeps the write lock of database.db, and
    the writes of later requests are refused until the server restarts.
    That lock is not part of [world]: the statements about several requests
    in a row either hold whatever the lock does to the later ones, or assume
    that no request failed inside SQLite ([fails_in_SQLite]). *)

From Stdlib Require Import Ascii.
From stdpp Require Import gmap strings list fin_maps pretty sorting.

Open Scope string_scope.
Open Scope Z_scope.

(** ** Text *)

Module Text.

Definition code (c : ascii) : N := Ascii.N_of_ascii c.

Definition between (lo hi : N) (c : ascii) : bool :=
  ((lo <=? code c) && (code c <=? hi))%N.

(** A UTF-8 continuation byte is not the start of a code point. *)
Definition is_continuation (c : ascii) : bool := between 128 191 c.

(** Python's [len] of a [str]: code points, not bytes. *)
Fixpoint len (s : string) : nat :=
  match s with
  | EmptyString => 0%nat
  | String c s' => if is_continuation c then len s' else S (len s')
  end.

Definition is_digit (c : ascii) : bool := between 48 57 c.
Definition is_alpha (c : ascii) : bool := between 65 90 c || between 97 122 c.
Definition is_alnum (c : ascii) : bool := is_alpha c || is_digit c.

Definition digit_value (c : ascii) : Z := Z.of_N (code c) - 48.

Fixpoint all_chars (p : ascii -> bool) (s : string) : bool :=
  match s with
  | EmptyString => true
  | String c s' => p c && all_chars p s'
  end.

(** The text is written in ASCII: no byte above 127. *)
Definition is_ascii (s : string) : bool := all_chars (between 0 127) s.

Fixpoint mem_char (c : ascii) (s : string) : bool :=
  match s with
  | EmptyString => false
  | String a s' => if Ascii.eqb a c then true else mem_char c s'
  end.

(** [s.split(sep)] on a one-character separator. *)
Fixpoint split (sep : ascii) (s : string) : list string :=
  match s with
  | EmptyString => [EmptyString]
  | String c s' =>
      if Ascii.eqb c sep then EmptyString :: split sep s'
      else match split sep s' with
           | p :: ps => String c p :: ps
           | [] => [String c EmptyString]
           end
  end.

(** [s.rsplit(sep, 1)]: the parts before and after the last separator. *)
Fixpoint rsplit1 (sep : ascii) (s : string) : option (string * string) :=
  match s with
  | EmptyString => None
  | String c s' =>
      match rsplit1 sep s' with
      | Some (u, d) => Some (String c u, d)
      | None => if Ascii.eqb c sep then Some (EmptyString, s') else None
      end
  end.

Fixpoint last_char (s : string) : option ascii :=
  match s with
  | EmptyString => None
  | String c EmptyString => Some c
  | String _ s' => last_char s'
  end.

Definition first_char (s : string) : option ascii :=
  match s with
  | EmptyString => None
  | String c _ => Some c
  end.

Definition is_space (c : ascii) : bool := between 9 13 c || between 32 32 c.

Fixpoint lstrip (s : string) : string :=
  match s with
  | String c s' => if is_space c then lstrip s' else s
  | EmptyString => EmptyString
  end.

Fixpoint rstrip (s : string) : string :=
  match s with
  | EmptyString => EmptyString
  | String c s' =>
      match rstrip s' with
      | EmptyString => if is_space c then EmptyString else String c EmptyString
      | r => String c r
      end
  end.

Definition strip (s : string) : string := rstrip (lstrip s).

(** Decimal digits to a number, most significant first. *)
Fixpoint digits_value (acc : Z) (s : string) : Z :=
  match s with
  | EmptyString => acc
  | String c s' => digits_value (10 * acc + digit_value c) s'
  end.

Definition pad (width : nat) (s : string) : string :=
  (String.concat EmptyString (replicate (width - String.length s) "0") ++ s)%string.

End Text.

(** ** Python objects *)

(** [datetime.date]. *)
Record date := Date { year : Z; month : Z; day : Z }.

(** What [request.get_json()] yields ([VNone] to [VDict]) and what
    [fields.Date] makes of a string ([VDate]). *)
#[warnings="-register-all"]
Inductive value : Type :=
  | VNone
  | VBool (b : bool)
  | VInt (n : Z)
  | VStr (s : string)
  | VDate (d : date)
  | VList (l : list value)
  | VDict (d : gmap string value).

Module datetime.

Definition is_leap (y : Z) : bool :=
  ((y mod 4 =? 0) && negb (y mod 100 =? 0)) || (y mod 400 =? 0).

Definition days_in_month (y m : Z) : Z :=
  if m =? 2 then (if is_leap y then 29 else 28)
  else if (m =? 4) || (m =? 6) || (m =? 9) || (m =? 11) then 30
  else 31.

(** [datetime.date(y, m, d)] raises [ValueError] outside these bounds. *)
Definition valid (y m d : Z) : bool :=
  (1 <=? y) && (y <=? 9999) && (1 <=? m) && (m <=? 12)
  && (1 <=? d) && (d <=? days_in_month y m).

(** [date.isoformat()]: YYYY-MM-DD. *)
Definition isoformat (d : date) : string :=
  (Text.pad 4 (pretty (year d)) ++ "-" ++ Text.pad 2 (pretty (month d))
   ++ "-" ++ Text.pad 2 (pretty (day d)))%string.

End datetime.

Abbreviation dict := (gmap string value).

(** [int(s)] for a [str]: optional blanks around, an optional sign, digits
    with single underscores allowed between them, and no more digits than
    [sys.get_int_max_str_digits()] allows. *)
Module builtins.

Fixpoint digits_ok (after_digit : bool) (s : string) : bool :=
  match s with
  | EmptyString => after_digit
  | String c s' =>
      if Text.is_digit c then digits_ok true s'
      else if Ascii.eqb c "_" then after_digit && digits_ok false s'
      else false
  end.

Fixpoint drop_underscores (s : string) : string :=
  match s with
  | EmptyString => EmptyString
  | String c s' =>
      if Ascii.eqb c "_" then drop_underscores s' else String c (drop_underscores s')
  end.

Definition int_max_str_digits : nat := 4300.

Definition unsigned (s : string) : option Z :=
  let digits := drop_underscores s in
  if digits_ok false s && (String.length digits <=? int_max_str_digits)%nat
  then Some (Text.digits_value 0 digits) else None.

Definition int_of_str (s : string) : option Z :=
  match Text.strip s with
  | String "-" r => Z.opp <$> unsigned r
  | String "+" r => unsigned r
  | r => unsigned r
  end.

End builtins.

(** ** Exceptions and results *)

Abbreviation messages := (gmap string (list string)).

Inductive exception : Type :=
  | ValidationError (msgs : messages)        (* marshmallow.ValidationError *)
  | KeyError (key : string)                  (* dict[key] on a missing key *)
  | TypeError (msg : string)                 (* subscript of a non-dict *)
  | OverflowError (msg : string)             (* an int that SQLite cannot hold *)
  | BadRequest                               (* werkzeug: 400, the body is not JSON text *)
  | UnsupportedMediaType                     (* werkzeug: 415, the body is not declared JSON *)
  | IntegrityError (msg : string)            (* sqlite3.IntegrityError *)
  | OperationalError (msg : string)          (* sqlite3.OperationalError *)
  | ProgrammingError (msg : string).         (* sqlite3.ProgrammingError *)

(** [isinstance(e, sqlite3.Error)]. *)
Definition is_sqlite3_Error (e : exception) : bool :=
  match e with
  | IntegrityError _ | OperationalError _ | ProgrammingError _ => true
  | ValidationError _ | KeyError _ | TypeError _ | OverflowError _
  | BadRequest | UnsupportedMediaType => false
  end.

(** [isinstance(e, werkzeug.exceptions.HTTPException)], with the status
    code the exception carries. *)
Definition HTTPException_code (e : exception) : option Z :=
  match e with
  | BadRequest => Some 400
  | UnsupportedMediaType => Some 415
  | _ => None
  end.

Inductive result (A : Type) : Type :=
  | Return (a : A)
  | Raise (e : exception).
Arguments Return {A} a.
Arguments Raise {A} e.

(** ** marshmallow *)

Module utils.

(** [from_iso_date]: the pattern [(\d{4})-(\d{1,2})-(\d{1,2})$] matched at
    the start of the string, then [datetime.date(year, month, day)]. *)
Fixpoint span_digits (s : string) : string * string :=
  match s with
  | String c s' =>
      if Text.is_digit c
      then let '(ds, r) := span_digits s' in (String c ds, r)
      else (EmptyString, s)
  | EmptyString => (EmptyString, EmptyString)
  end.

Definition newline : ascii := Ascii.ascii_of_nat 10.

(** [$] matches at the end of the string or just before a final newline. *)
Definition at_end (s : string) : bool :=
  String.eqb s EmptyString || String.eqb s (String newline EmptyString).

Definition from_iso_date (s : string) : option date :=
  let '(y, r) := span_digits s in
  match r with
  | String "-" r1 =>
      let '(m, r2) := span_digits r1 in
      match r2 with
      | String "-" r3 =>
          let '(d, r4) := span_digits r3 in
          let yy := Text.digits_value 0 y in
          let mm := Text.digits_value 0 m in
          let dd := Text.digits_value 0 d in
          if (String.length y =? 4)%nat
             && (1 <=? String.length m)%nat && (String.length m <=? 2)%nat
             && (1 <=? String.length d)%nat && (String.length d <=? 2)%nat
             && at_end r4 && datetime.valid yy mm dd
          then Some (Date yy mm dd)
          else None
      | _ => None
      end
  | _ => None
  end.

End utils.

Module validate.

Inductive t : Type :=
  | Length (min max : option nat)
  | OneOf (choices : list string)
  | Email.

(** Characters of a dot-atom: the ASCII word characters and the punctuation
    listed. *)
Definition is_atext (c : ascii) : bool :=
  Text.is_alnum c || Ascii.eqb c "_"
  || Text.mem_char c "-!#$%&'*+/=?^`{}|~".

Definition dot_atom (s : string) : bool :=
  forallb (fun a => negb (String.eqb a EmptyString) && Text.all_chars is_atext a)
          (Text.split "." s).

Definition dquote : ascii := Ascii.ascii_of_nat 34.
Definition backslash : ascii := Ascii.ascii_of_nat 92.

Definition is_qtext (c : ascii) : bool :=
  Text.between 1 8 c || Text.between 11 12 c || Text.between 14 31 c
  || Text.between 33 33 c || Text.between 35 91 c || Text.between 93 127 c.

Definition is_quotable (c : ascii) : bool :=
  Text.between 1 9 c || Text.between 11 12 c || Text.between 14 127 c.

(** The inside of a quoted string up to and including its closing quote. *)
Fixpoint quoted_tail (s : string) : bool :=
  match s with
  | EmptyString => false
  | String c s' =>
      if Ascii.eqb c dquote then String.eqb s' EmptyString
      else if Ascii.eqb c backslash
      then match s' with
           | String q s'' => is_quotable q && quoted_tail s''
           | EmptyString => false
           end
      else is_qtext c && quoted_tail s'
  end.

Definition USER_REGEX (s : string) : bool :=
  dot_atom s
  || match s with
     | String c s' => Ascii.eqb c dquote && quoted_tail s'
     | EmptyString => false
     end.

Definition label_ok (l : string) : bool :=
  (1 <=? String.length l)%nat && (String.length l <=? 63)%nat
  && Text.all_chars (fun c => Text.is_alnum c || Ascii.eqb c "-") l
  && from_option Text.is_alnum false (Text.first_char l)
  && from_option Text.is_alnum false (Text.last_char l).

Definition tld_ok (l : string) : bool :=
  (2 <=? String.length l)%nat
  && Text.all_chars (fun c => Text.is_alnum c || Ascii.eqb c "-") l.

Definition octet_ok (o : string) : bool :=
  (1 <=? String.length o)%nat && (String.length o <=? 3)%nat
  && Text.all_chars Text.is_digit o && (Text.digits_value 0 o <=? 255).

Definition ipv4_literal (s : string) : bool :=
  match s with
  | String "[" r =>
      match Text.rsplit1 "]" r with
      | Some (inner, EmptyString) =>
          let os := Text.split "." inner in
          (length os =? 4)%nat && forallb octet_ok os
      | _ => false
      end
  | _ => false
  end.

Definition DOMAIN_REGEX (s : string) : bool :=
  match reverse (Text.split "." s) with
  | tld :: l :: ls => tld_ok tld && forallb label_ok (l :: ls)
  | _ => false
  end
  || ipv4_literal s.

Definition DOMAIN_WHITELIST : list string := ["localhost"].

(** [validate.Email.__call__]: an [@] must be present; the part after the
    last [@] is the domain. *)
Definition Email_ok (value : string) : bool :=
  if String.eqb value EmptyString || negb (Text.mem_char "@" value) then false
  else match Text.rsplit1 "@" value with
       | Some (user_part, domain_part) =>
           USER_REGEX user_part
           && (bool_decide (domain_part ∈ DOMAIN_WHITELIST)
               || DOMAIN_REGEX domain_part)
       | None => false
       end.

Definition join (l : list string) : string := String.concat ", " l.

(** The messages a validator raises on a deserialized value ([[]] when it
    passes).  Every validator in the source guards a string field. *)
Definition run (v : t) (x : string) : list string :=
  match v with
  | Length mn mx =>
      let n := Text.len x in
      let short := from_option (fun m => (n <? m)%nat) false mn in
      let long := from_option (fun m => (m <? n)%nat) false mx in
      if short || long then
        match mn, mx with
        | Some a, Some b =>
            [("Length must be between " ++ pretty a ++ " and " ++ pretty b ++ ".")%string]
        | Some a, None => [("Shorter than minimum length " ++ pretty a ++ ".")%string]
        | None, Some b => [("Longer than maximum length " ++ pretty b ++ ".")%string]
        | None, None => []
        end
      else []
  | OneOf choices =>
      if bool_decide (x ∈ choices) then []
      else [("Must be one of: " ++ join choices ++ ".")%string]
  | Email =>
      if Email_ok x then [] else ["Not a valid email address."]
  end.

End validate.

Module fields.

Inductive t : Type := Integer | String | Date | Email.

(** The message of the [invalid] error of each field class. *)
Definition invalid (k : t) : string :=
  match k with
  | Integer => "Not a valid integer."
  | String => "Not a valid string."
  | Date => "Not a valid date."
  | Email => "Not a valid email address."
  end.

(** [Field._deserialize]: [None] stands for the [invalid] error. *)
Definition deserialize_type (k : t) (v : value) : option value :=
  match k, v with
  | (String | Email), VStr s => Some (VStr s)
  | Integer, VInt n => Some (VInt n)
  | Integer, VStr s => VInt <$> builtins.int_of_str s
  | Date, VStr s => VDate <$> utils.from_iso_date s
  | _, _ => None
  end.

End fields.

(** A declared field: [fields.K(required=..., dump_only=..., validate=...)]. *)
Record Field := mkField {
  kind : fields.t;
  required : bool;
  dump_only : bool;
  validators : list validate.t
}.

(** [fields.Email] puts [validate.Email] in front of the validators given. *)
Definition all_validators (f : Field) : list validate.t :=
  match kind f with
  | fields.Email => validate.Email :: validators f
  | _ => validators f
  end.

Definition run_validators (f : Field) (v : value) : list string :=
  match v with
  | VStr s => concat (map (fun c => validate.run c s) (all_validators f))
  | _ => []
  end.

(** [Field.deserialize] on a key that is present: null check, type, then
    every validator, their messages collected. *)
Definition deserialize (f : Field) (v : value) : list string + value :=
  match v with
  | VNone => inl ["Field may not be null."]
  | _ =>
      match fields.deserialize_type (kind f) v with
      | None => inl [fields.invalid (kind f)]
      | Some v' =>
          match run_validators f v' with
          | [] => inr v'
          | errs => inl errs
          end
      end
  end.

Inductive unknown_policy : Type := RAISE | EXCLUDE | INCLUDE.

Record Schema := mkSchema {
  declared_fields : list (string * Field);
  unknown : unknown_policy
}.

(** The fields used by [load]: the declared ones that are not [dump_only]. *)
Definition load_fields (s : Schema) : gmap string Field :=
  list_to_map (filter (fun nf => dump_only nf.2 = false) (declared_fields s)).

(** What [Schema._deserialize] records under one key: an error list ... *)
Definition key_errors (u : unknown_policy)
    (fld : option Field) (raw : option value) : option (list string) :=
  match fld, raw with
  | Some f, None =>
      if required f then Some ["Missing data for required field."] else None
  | Some f, Some v =>
      match deserialize f v with inl errs => Some errs | inr _ => None end
  | None, Some _ =>
      match u with RAISE => Some ["Unknown field."] | _ => None end
  | None, None => None
  end.

(** ... or a loaded value. *)
Definition key_value (u : unknown_policy)
    (fld : option Field) (raw : option value) : option value :=
  match fld, raw with
  | Some f, Some v =>
      match deserialize f v with inr v' => Some v' | inl _ => None end
  | None, Some v =>
      match u with INCLUDE => Some v | _ => None end
  | _, None => None
  end.

(** [Schema.load(data)]. *)
Definition load (s : Schema) (data : value) : result value :=
  match data with
  | VDict d =>
      let errors := merge (key_errors (unknown s)) (load_fields s) d in
      if decide (errors = ∅)
      then Return (VDict (merge (key_value (unknown s)) (load_fields s) d))
      else Raise (ValidationError errors)
  | _ => Raise (ValidationError {[ "_schema" := ["Invalid input type."] ]})
  end.

(** ** schemas.py *)

(** [fields.K(...)] with the keyword arguments the source passes; what it
    does not pass keeps the library's default ([required=False],
    [dump_only=False], no validator). *)
Definition field (k : fields.t) : Field :=
  {| kind := k; required := false; dump_only := false; validators := [] |}.

Definition required_field (k : fields.t) (vs : list validate.t) : Field :=
  {| kind := k; required := true; dump_only := false; validators := vs |}.

Definition validated_field (k : fields.t) (vs : list validate.t) : Field :=
  {| kind := k; required := false; dump_only := false; validators := vs |}.

Definition dump_only_field (k : fields.t) : Field :=
  {| kind := k; required := false; dump_only := true; validators := [] |}.

(** None of the three classes has a [class Meta]: [unknown] is the
    library's default, [RAISE]. *)
Definition ProjetoSchema : Schema := {|
  declared_fields := [
    ("id", dump_only_field fields.Integer);
    ("nome", required_field fields.String [validate.Length (Some 1%nat) (Some 255%nat)]);
    ("descricao", field fields.String);
    ("data_inicio", field fields.Date);
    ("data_fim", field fields.Date)
  ];
  unknown := RAISE
|}.

Definition TarefaSchema : Schema := {|
  declared_fields := [
    ("id", dump_only_field fields.Integer);
    ("titulo", required_field fields.String [validate.Length (Some 1%nat) (Some 255%nat)]);
    ("descricao", field fields.String);
    ("status", validated_field fields.String
       [validate.OneOf ["Pendente"; "Em andamento"; "Concluída"]]);
    ("prioridade", validated_field fields.String
       [validate.OneOf ["Baixa"; "Média"; "Alta"]]);
    ("data_vencimento", field fields.Date);
    ("projeto_id", field fields.Integer);
    ("responsavel_id", field fields.Integer)
  ];
  unknown := RAISE
|}.

Definition UsuarioSchema : Schema := {|
  declared_fields := [
    ("id", dump_only_field fields.Integer);
    ("nome", required_field fields.String [validate.Length (Some 1%nat) (Some 255%nat)]);
    ("email", required_field fields.Email []);
    ("senha", required_field fields.String [validate.Length (Some 6%nat) None])
  ];
  unknown := RAISE
|}.

(** ** SQLite: banco_projetos.py and the statements of app.py *)

Module sqlite3.

Inductive sqlval : Type := NULL | INTEGER (n : Z) | TEXT (s : string).

#[export] Instance sqlval_eq_dec : EqDecision sqlval.
Proof. solve_decision. Defined.

(** An SQLite INTEGER is a signed 64-bit integer. *)
Definition int64 (n : Z) : Prop := - 2 ^ 63 ≤ n < 2 ^ 63.

#[export] Instance int64_dec n : Decision (int64 n).
Proof. unfold int64. apply _. Defined.

Definition too_large : exception :=
  OverflowError "Python int too large to convert to SQLite INTEGER".

(** Binding a Python object to a [?]: the module's default adapters. *)
Definition adapt (v : value) : result sqlval :=
  match v with
  | VNone => Return NULL
  | VBool b => Return (INTEGER (if b then 1 else 0))
  | VInt n => if decide (int64 n) then Return (INTEGER n) else Raise too_large
  | VStr s => Return (TEXT s)
  | VDate d => Return (TEXT (datetime.isoformat d))
  | VList _ | VDict _ =>
      Raise (ProgrammingError "Error binding parameter: type is not supported")
  end.

Fixpoint adapt_all (vs : list value) : result (list sqlval) :=
  match vs with
  | [] => Return []
  | v :: vs' =>
      match adapt v, adapt_all vs' with
      | Return x, Return xs => Return (x :: xs)
      | Raise e, _ => Raise e
      | _, Raise e => Raise e
      end
  end.

Inductive table_name : Type := TB_PROJETOS | TB_TAREFAS | TB_USUARIOS.

#[export] Instance table_name_eq_dec : EqDecision table_name.
Proof. solve_decision. Defined.

Definition name_of (t : table_name) : string :=
  match t with
  | TB_PROJETOS => "TB_PROJETOS"
  | TB_TAREFAS => "TB_TAREFAS"
  | TB_USUARIOS => "TB_USUARIOS"
  end.

(** A column other than [id INTEGER PRIMARY KEY AUTOINCREMENT UNIQUE]. *)
Record column := Column {
  col_name : string;
  not_null : bool;
  unique : bool;
  default_value : sqlval
}.

(** The CREATE TABLE statements, each column as
    [Column name NOT_NULL UNIQUE DEFAULT].  The FOREIGN KEY clauses of
    TB_TAREFAS declare no action and SQLite does not enforce them unless
    [PRAGMA foreign_keys] is switched on, which no connection does.  Every
    value the handlers bind already has the storage class its column keeps
    (text in the VARCHAR, TEXT and DATE columns, integers in the INTEGER
    ones), so no affinity conversion is modelled. *)
Definition columns (t : table_name) : list column :=
  match t with
  | TB_PROJETOS =>
      [ Column "nome" true false NULL;
        Column "descricao" false false NULL;
        Column "data_inicio" false false NULL;
        Column "data_fim" false false NULL ]
  | TB_TAREFAS =>
      [ Column "titulo" true false NULL;
        Column "descricao" false false NULL;
        Column "status" false false (TEXT "Pendente");
        Column "prioridade" false false (TEXT "Média");
        Column "data_vencimento" false false NULL;
        Column "projeto_id" false false NULL;
        Column "responsavel_id" false false NULL ]
  | TB_USUARIOS =>
      [ Column "nome" true false NULL;
        Column "email" true true NULL;
        Column "senha" true false NULL ]
  end.

Abbreviation cells := (gmap string sqlval).

(** A table: its rows by rowid (the [id] column) and the counter that
    AUTOINCREMENT keeps in [sqlite_sequence]. *)
Record table := Table {
  rows : gmap Z cells;
  seq : Z
}.

Record database := Database {
  projetos : table;
  tarefas : table;
  usuarios : table
}.

Definition get_table (t : table_name) (db : database) : table :=
  match t with
  | TB_PROJETOS => projetos db
  | TB_TAREFAS => tarefas db
  | TB_USUARIOS => usuarios db
  end.

Definition set_table (t : table_name) (tb : table) (db : database) : database :=
  match t with
  | TB_PROJETOS => Database tb (tarefas db) (usuarios db)
  | TB_TAREFAS => Database (projetos db) tb (usuarios db)
  | TB_USUARIOS => Database (projetos db) (tarefas db) tb
  end.

(** The database file right after banco_projetos.py has run. *)
Definition empty_table : table := Table ∅ 0.
Definition banco : database := Database empty_table empty_table empty_table.

(** The four statement shapes of app.py; the [?] are bound in order, the
    [WHERE id = ?] of UPDATE and DELETE last. *)
Inductive statement : Type :=
  | SELECT_ALL (t : table_name)
  | INSERT_INTO (t : table_name) (cols : list string)
  | UPDATE_SET (t : table_name) (cols : list string)
  | DELETE_FROM (t : table_name).

Definition target (s : statement) : table_name :=
  match s with
  | SELECT_ALL t | INSERT_INTO t _ | UPDATE_SET t _ | DELETE_FROM t => t
  end.

(** A row as [sqlite3.Row] shows it: every column by name, [id] included. *)
Definition Row (i : Z) (c : cells) : cells := <["id" := INTEGER i]> c.

Definition max_rowid (r : gmap Z cells) : Z :=
  foldr Z.max 0 ((map_to_list r).*1).

(** [SELECT * FROM t] walks the table: the rows come in rowid order. *)
Definition rowid_le (x y : Z * cells) : Prop := x.1 ≤ y.1.

#[export] Instance rowid_le_dec x y : Decision (rowid_le x y).
Proof. unfold rowid_le. apply _. Defined.

Definition in_rowid_order (r : gmap Z cells) : list (Z * cells) :=
  merge_sort rowid_le (map_to_list r).

(** The rowid AUTOINCREMENT gives the next row. *)
Definition next_rowid (tb : table) : Z := Z.max (seq tb) (max_rowid (rows tb)) + 1.

Definition has_column (t : table_name) (c : string) : bool :=
  bool_decide (c ∈ col_name <$> columns t).

(** NOT NULL, checked on the row about to be written. *)
Definition not_null_violation (t : table_name) (c : cells) : option string :=
  col_name <$> find (fun col => not_null col && bool_decide (c !! col_name col = Some NULL))
                    (columns t).

(** UNIQUE, checked against the other rows (NULLs never collide). *)
Definition unique_violation (t : table_name) (others : gmap Z cells) (c : cells)
    : option string :=
  col_name <$> find (fun col =>
                       unique col
                       && match c !! col_name col with
                          | Some NULL | None => false
                          | Some x =>
                              bool_decide (Exists (fun r => r.2 !! col_name col = Some x)
                                                  (map_to_list others))
                          end)
                    (columns t).

Definition check_constraints (t : table_name) (others : gmap Z cells) (c : cells)
    : result unit :=
  match not_null_violation t c with
  | Some col =>
      Raise (IntegrityError ("NOT NULL constraint failed: " ++ name_of t ++ "." ++ col))
  | None =>
      match unique_violation t others c with
      | Some col =>
          Raise (IntegrityError ("UNIQUE constraint failed: " ++ name_of t ++ "." ++ col))
      | None => Return tt
      end
  end.

Definition check_columns (t : table_name) (cols : list string) : result unit :=
  match find (fun c => negb (has_column t c)) cols with
  | Some c => Raise (OperationalError ("no such column: " ++ c))
  | None => Return tt
  end.

Definition bindings_error {A} : result A :=
  Raise (ProgrammingError "Incorrect number of bindings supplied.").

(** The row an INSERT writes: the listed columns take the bound values,
    the others their DEFAULT. *)
Definition new_cells (t : table_name) (given : cells) : cells :=
  list_to_map ((fun col => (col_name col,
                                default (default_value col) (given !! col_name col)))
               <$> columns t).

(** One statement against a database: the database after it and the rows
    it returns. *)
Definition step (db : database) (s : statement) (params : list sqlval)
    : result (database * list cells) :=
  let tb := get_table (target s) db in
  match s with
  | SELECT_ALL t =>
      match params with
      | [] => Return (db, (fun r => Row r.1 r.2) <$> in_rowid_order (rows tb))
      | _ => bindings_error
      end
  | INSERT_INTO t cols =>
      if negb (length cols =? length params)%nat then bindings_error else
      match check_columns t cols with
      | Raise e => Raise e
      | Return _ =>
          let c := new_cells t (list_to_map (zip cols params)) in
          match check_constraints t (rows tb) c with
          | Raise e => Raise e
          | Return _ =>
              let i := next_rowid tb in
              Return (set_table t (Table (<[i := c]> (rows tb)) i) db, [])
          end
      end
  | UPDATE_SET t cols =>
      if negb (S (length cols) =? length params)%nat then bindings_error else
      match check_columns t cols with
      | Raise e => Raise e
      | Return _ =>
          match last params with
          | Some (INTEGER i) =>
              match rows tb !! i with
              | Some old =>
                  let c := list_to_map (zip cols params) ∪ old in
                  match check_constraints t (delete i (rows tb)) c with
                  | Raise e => Raise e
                  | Return _ =>
                      Return (set_table t (Table (<[i := c]> (rows tb)) (seq tb)) db, [])
                  end
              | None => Return (db, [])
              end
          | _ => Return (db, [])
          end
      end
  | DELETE_FROM t =>
      match params with
      | [INTEGER i] => Return (set_table t (Table (delete i (rows tb)) (seq tb)) db, [])
      | [_] => Return (db, [])
      | _ => bindings_error
      end
  end.

End sqlite3.
Export sqlite3.

(** ** The world a handler runs in *)

(** A record written to api.log by [logging.error] (level ERROR). *)
Inductive log_record : Type :=
  | Erro_de_validacao (msgs : messages)         (* f'Erro de validação: {err.messages}' *)
  | Erro_de_Banco_de_Dados (e : exception)      (* f'Erro de Banco de Dados: {err}' *)
  | Exception_on (e : exception).               (* Flask's record of an unhandled exception *)

Record world := World {
  database_db : database;          (* the committed content of database.db *)
  api_log : list log_record;       (* api.log, oldest first *)
  connections : nat;               (* calls of sqlite3.connect so far *)
  statements : list statement      (* statements handed to SQLite so far *)
}.

Definition M (A : Type) : Type := world -> result A * world.

#[global] Instance M_ret : MRet M := fun A a w => (Return a, w).

#[global] Instance M_bind : MBind M := fun A B f m w =>
  match m w with
  | (Return a, w') => f a w'
  | (Raise e, w') => (Raise e, w')
  end.

Definition raise {A} (e : exception) : M A := fun w => (Raise e, w).

Definition lift {A} (r : result A) : M A := fun w => (r, w).

(** [try: body / except ...]: [handler e] is the clause that matches [e],
    if one does. *)
Definition try_except {A} (body : M A) (handler : exception -> option (M A)) : M A :=
  fun w =>
    match body w with
    | (Raise e, w') =>
        match handler e with
        | Some h => h w'
        | None => (Raise e, w')
        end
    | r => r
    end.

Module logging.
Definition error (r : log_record) : M unit := fun w =>
  (Return tt, World (database_db w) (api_log w ++ [r]) (connections w) (statements w)).
End logging.

(** The body of a request as Flask holds it.  [request.get_json()] returns
    the parsed value; it raises 415 when the request does not declare a JSON
    content type and 400 when its text is not JSON. *)
Inductive payload : Type :=
  | Parsed (request_json : value)
  | Not_declared_JSON
  | Malformed.

Coercion Parsed : value >-> payload.

Definition get_json (request : payload) : M value :=
  match request with
  | Parsed request_json => mret request_json
  | Not_declared_JSON => raise UnsupportedMediaType
  | Malformed => raise BadRequest
  end.

(** [d[key]]. *)
Definition getitem (d : value) (key : string) : M value :=
  match d with
  | VDict m =>
      match m !! key with
      | Some v => mret v
      | None => raise (KeyError key)
      end
  | _ => raise (TypeError "object is not subscriptable")
  end.

(** An open connection: the database as this connection sees it, its own
    uncommitted changes included. *)
Record connection := Connection { view : database }.

Definition get_db_connection : M connection := fun w =>
  (Return (Connection (database_db w)),
   World (database_db w) (api_log w) (S (connections w)) (statements w)).

(** [conn.execute(sql, params)]: the parameters are bound first, then the
    statement runs; the rows of the cursor come with the connection as the
    statement left it.  An exception here leaves the handler before
    [commit] and [close]. *)
Definition execute (conn : connection) (sql : statement) (params : list value)
    : M (connection * list cells) := fun w =>
  match adapt_all params with
  | Raise e => (Raise e, w)
  | Return ps =>
      let w' := World (database_db w) (api_log w) (connections w) (statements w ++ [sql]) in
      match step (view conn) sql ps with
      | Raise e => (Raise e, w')
      | Return (db', rs) => (Return (Connection db', rs), w')
      end
  end.

Definition fetchall (cursor : connection * list cells) : list cells := cursor.2.

Definition commit (conn : connection) : M unit := fun w =>
  (Return tt, World (view conn) (api_log w) (connections w) (statements w)).

(** Closing drops whatever the connection has not committed. *)
Definition close (conn : connection) : M unit := mret tt.

(** ** Responses *)

Inductive json : Type :=
  | mensagem (s : string)             (* {'mensagem': s} *)
  | field_errors (m : messages)       (* err.messages *)
  | array (l : list cells).           (* [dict(row) for row in rows] *)

Record response := Response { body : json; status : Z }.

(** [jsonify(x)] alone is a 200; [jsonify(x), code] carries its status. *)
Definition jsonify (j : json) : response := Response j 200.
Definition with_status (r : response) (code : Z) : response := Response (body r) code.

(** [dict(row)]. *)
Definition dict_of_Row (r : cells) : cells := r.

(** What Flask sends when a view function returns or raises.  An
    HTTPException is answered with its own page and status and is not
    logged.  The source starts the server with [app.run(debug=True)]: any
    other exception that leaves the view is then shown to the caller by the
    debugger; without debug it is logged and answered with the stock error
    page. *)
Inductive http_body : Type :=
  | JSON (j : json)
  | Traceback (e : exception)
  | Internal_Server_Error_page
  | HTTPException_page (code : Z).

Definition dispatch_request (debug : bool) (view_function : M response)
    : world -> (http_body * Z) * world := fun w =>
  match view_function w with
  | (Return r, w') => ((JSON (body r), status r), w')
  | (Raise e, w') =>
      match HTTPException_code e with
      | Some code => ((HTTPException_page code, code), w')
      | None =>
          if debug then ((Traceback e, 500), w')
          else ((Internal_Server_Error_page, 500),
                World (database_db w') (api_log w' ++ [Exception_on e])
                      (connections w') (statements w'))
      end
  end.

(** ** app.py *)

(** The block that opens the six create and update handlers, the same text
    in each:

      try: dados = schema.load(request.get_json())
      except ValidationError as err: log, return jsonify(err.messages), 400
      except sqlite3.Error as err: log, return jsonify({'mensagem': ...}), 500

    It yields [dados], or the response returned from inside a clause. *)
Definition try_load (schema : Schema) (request : payload) : M (value + response) :=
  try_except
    (request_json ← get_json request;
     dados ← lift (load schema request_json);
     mret (inl dados))
    (fun err =>
       match err with
       | ValidationError msgs =>
           Some (logging.error (Erro_de_validacao msgs);;
                 mret (inr (with_status (jsonify (field_errors msgs)) 400)))
       | _ =>
           if is_sqlite3_Error err
           then Some (logging.error (Erro_de_Banco_de_Dados err);;
                      mret (inr (with_status (jsonify (mensagem "Erro interno do servidor")) 500)))
           else None
       end).

(** *** Projetos *)

Definition listar_projetos : M response :=
  conn ← get_db_connection;
  cursor ← execute conn (SELECT_ALL TB_PROJETOS) [];
  let projetos := fetchall cursor in
  close conn;;
  mret (jsonify (array (map dict_of_Row projetos))).

Definition criar_projeto (request : payload) : M response :=
  r ← try_load ProjetoSchema request;
  match r with
  | inr resposta => mret resposta
  | inl dados =>
      conn ← get_db_connection;
      nome ← getitem dados "nome";
      descricao ← getitem dados "descricao";
      data_inicio ← getitem dados "data_inicio";
      data_fim ← getitem dados "data_fim";
      cursor ← execute conn
        (INSERT_INTO TB_PROJETOS ["nome"; "descricao"; "data_inicio"; "data_fim"])
        [nome; descricao; data_inicio; data_fim];
      commit cursor.1;;
      close cursor.1;;
      mret (with_status (jsonify (mensagem "Projeto criado com sucesso!")) 201)
  end.

Definition atualizar_projeto (id : Z) (request : payload) : M response :=
  r ← try_load ProjetoSchema request;
  match r with
  | inr resposta => mret resposta
  | inl dados =>
      conn ← get_db_connection;
      nome ← getitem dados "nome";
      descricao ← getitem dados "descricao";
      data_inicio ← getitem dados "data_inicio";
      data_fim ← getitem dados "data_fim";
      cursor ← execute conn
        (UPDATE_SET TB_PROJETOS ["nome"; "descricao"; "data_inicio"; "data_fim"])
        [nome; descricao; data_inicio; data_fim; VInt id];
      commit cursor.1;;
      close cursor.1;;
      mret (jsonify (mensagem "Projeto atualizado com sucesso!"))
  end.

Definition excluir_projeto (id : Z) : M response :=
  conn ← get_db_connection;
  cursor ← execute conn (DELETE_FROM TB_PROJETOS) [VInt id];
  commit cursor.1;;
  close cursor.1;;
  mret (jsonify (mensagem "Projeto excluído com sucesso!")).

(** *** Tarefas *)

Definition listar_tarefas : M response :=
  conn ← get_db_connection;
  cursor ← execute conn (SELECT_ALL TB_TAREFAS) [];
  let tarefas := fetchall cursor in
  close conn;;
  mret (jsonify (array (map dict_of_Row tarefas))).

Definition colunas_tarefa : list string :=
  ["titulo"; "descricao"; "status"; "prioridade"; "data_vencimento";
   "projeto_id"; "responsavel_id"].

Definition criar_tarefa (request : payload) : M response :=
  r ← try_load TarefaSchema request;
  match r with
  | inr resposta => mret resposta
  | inl dados =>
      conn ← get_db_connection;
      titulo ← getitem dados "titulo";
      descricao ← getitem dados "descricao";
      status ← getitem dados "status";
      prioridade ← getitem dados "prioridade";
      data_vencimento ← getitem dados "data_vencimento";
      projeto_id ← getitem dados "projeto_id";
      responsavel_id ← getitem dados "responsavel_id";
      cursor ← execute conn (INSERT_INTO TB_TAREFAS colunas_tarefa)
        [titulo; descricao; status; prioridade; data_vencimento;
         projeto_id; responsavel_id];
      commit cursor.1;;
      close cursor.1;;
      mret (with_status (jsonify (mensagem "Tarefa criada com sucesso!")) 201)
  end.

Definition atualizar_tarefa (id : Z) (request : payload) : M response :=
  r ← try_load TarefaSchema request;
  match r with
  | inr resposta => mret resposta
  | inl dados =>
      conn ← get_db_connection;
      titulo ← getitem dados "titulo";
      descricao ← getitem dados "descricao";
      status ← getitem dados "status";
      prioridade ← getitem dados "prioridade";
      data_vencimento ← getitem dados "data_vencimento";
      projeto_id ← getitem dados "projeto_id";
      responsavel_id ← getitem dados "responsavel_id";
      cursor ← execute conn (UPDATE_SET TB_TAREFAS colunas_tarefa)
        [titulo; descricao; status; prioridade; data_vencimento;
         projeto_id; responsavel_id; VInt id];
      commit cursor.1;;
      close cursor.1;;
      mret (jsonify (mensagem "Tarefa atualizada com sucesso!"))
  end.

Definition excluir_tarefa (id : Z) : M response :=
  conn ← get_db_connection;
  cursor ← execute conn (DELETE_FROM TB_TAREFAS) [VInt id];
  commit cursor.1;;
  close cursor.1;;
  mret (jsonify (mensagem "Tarefa excluída com sucesso!")).

(** *** Usuários *)

Definition listar_usuarios : M response :=
  conn ← get_db_connection;
  cursor ← execute conn (SELECT_ALL TB_USUARIOS) [];
  let usuarios := fetchall cursor in
  close conn;;
  mret (jsonify (array (map dict_of_Row usuarios))).

(** After the validation the two user handlers rebind [dados] to the raw
    body, [dados = request.get_json()], and bind the statement from it. *)
Definition criar_usuario (request : payload) : M response :=
  r ← try_load UsuarioSchema request;
  match r with
  | inr resposta => mret resposta
  | inl _ =>
      dados ← get_json request;
      conn ← get_db_connection;
      nome ← getitem dados "nome";
      email ← getitem dados "email";
      senha ← getitem dados "senha";
      cursor ← execute conn (INSERT_INTO TB_USUARIOS ["nome"; "email"; "senha"])
        [nome; email; senha];
      commit cursor.1;;
      close cursor.1;;
      mret (with_status (jsonify (mensagem "Usuário criado com sucesso!")) 201)
  end.

Definition atualizar_usuario (id : Z) (request : payload) : M response :=
  r ← try_load UsuarioSchema request;
  match r with
  | inr resposta => mret resposta
  | inl _ =>
      dados ← get_json request;
      conn ← get_db_connection;
      nome ← getitem dados "nome";
      email ← getitem dados "email";
      senha ← getitem dados "senha";
      cursor ← execute conn (UPDATE_SET TB_USUARIOS ["nome"; "email"; "senha"])
        [nome; email; senha; VInt id];
      commit cursor.1;;
      close cursor.1;;
      mret (jsonify (mensagem "Usuário atualizado com sucesso!"))
  end.

Definition excluir_usuario (id : Z) : M response :=
  conn ← get_db_connection;
  cursor ← execute conn (DELETE_FROM TB_USUARIOS) [VInt id];
  commit cursor.1;;
  close cursor.1;;
  mret (jsonify (mensagem "Usuário excluído com sucesso!")).

(** *** Boas-vindas *)

Definition boas_vindas : M response :=
  mret (jsonify (mensagem "Bem-vindo à API Gerenciador de Tarefas e Projetos!")).

(** *** The routes *)

Inductive resource : Type := Projetos | Tarefas | Usuarios.

(** A request the application routes: [GET /projetos], [POST /projetos],
    [PUT /projetos/<int:id>], [DELETE /projetos/<int:id>], the same for
    /tarefas and /usuarios, and [GET /].  The [int] converter of a route
    reads a run of digits of any length, so an [id] that arrives is a
    natural number without upper bound. *)
Inductive request : Type :=
  | GET (r : resource)
  | POST (r : resource) (body : payload)
  | PUT (r : resource) (id : Z) (body : payload)
  | DELETE (r : resource) (id : Z)
  | GET_root.

(** The [@app.route] table. *)
Definition url_map (req : request) : M response :=
  match req with
  | GET Projetos => listar_projetos
  | POST Projetos b => criar_projeto b
  | PUT Projetos id b => atualizar_projeto id b
  | DELETE Projetos id => excluir_projeto id
  | GET Tarefas => listar_tarefas
  | POST Tarefas b => criar_tarefa b
  | PUT Tarefas id b => atualizar_tarefa id b
  | DELETE Tarefas id => excluir_tarefa id
  | GET Usuarios => listar_usuarios
  | POST Usuarios b => criar_usuario b
  | PUT Usuarios id b => atualizar_usuario id b
  | DELETE Usuarios id => excluir_usuario id
  | GET_root => boas_vindas
  end.

Definition schema_of (r : resource) : Schema :=
  match r with
  | Projetos => ProjetoSchema
  | Tarefas => TarefaSchema
  | Usuarios => UsuarioSchema
  end.

Definition table_of (r : resource) : table_name :=
  match r with
  | Projetos => TB_PROJETOS
  | Tarefas => TB_TAREFAS
  | Usuarios => TB_USUARIOS
  end.

Definition resource_of (req : request) : option resource :=
  match req with
  | GET r | POST r _ | PUT r _ _ | DELETE r _ => Some r
  | GET_root => None
  end.

(** The columns a create or update statement binds from the body. *)
Definition bound_keys (r : resource) : list string :=
  col_name <$> columns (table_of r).

Definition criado (r : resource) : string :=
  match r with
  | Projetos => "Projeto criado com sucesso!"
  | Tarefas => "Tarefa criada com sucesso!"
  | Usuarios => "Usuário criado com sucesso!"
  end.

Definition atualizado (r : resource) : string :=
  match r with
  | Projetos => "Projeto atualizado com sucesso!"
  | Tarefas => "Tarefa atualizada com sucesso!"
  | Usuarios => "Usuário atualizado com sucesso!"
  end.

Definition excluido (r : resource) : string :=
  match r with
  | Projetos => "Projeto excluído com sucesso!"
  | Tarefas => "Tarefa excluída com sucesso!"
  | Usuarios => "Usuário excluído com sucesso!"
  end.

(** ** Vocabulary of the statements *)

(** The rows of a resource's table in the committed database. *)
Definition rows_of (r : resource) (w : world) : gmap Z cells :=
  rows (get_table (table_of r) (database_db w)).

(** The handler returned this body with this status. *)
Definition returns (x : result response * world) (j : json) (code : Z) : Prop :=
  x.1 = Return (Response j code).

(** The world after one more line in api.log, one more connection, one more
    statement, a commit. *)
Definition logged (w : world) (r : log_record) : world :=
  World (database_db w) (api_log w ++ [r]) (connections w) (statements w).

Definition connected (w : world) : world :=
  World (database_db w) (api_log w) (S (connections w)) (statements w).

Definition executed (w : world) (sql : statement) : world :=
  World (database_db w) (api_log w) (connections w) (statements w ++ [sql]).

Definition committed (w : world) (db : database) : world :=
  World db (api_log w) (connections w) (statements w).


(** Every integer of a dict fits an SQLite INTEGER. *)
Definition integers_fit (dados : value) : Prop :=
  ∀ m k n, dados = VDict m → m !! k = Some (VInt n) → int64 n.


(** The handler raised an [sqlite3.Error].  It did not reach [conn.close()]:
    its connection stays open and, when the error came from the statement,
    keeps the transaction and the write lock of the database file. *)
Definition fails_in_SQLite (x : result response * world) : Prop :=
  ∃ e, x.1 = Raise e ∧ is_sqlite3_Error e = true.

(** The cell SQLite holds for a submitted value: the value as the field
    deserializes it, then as the adapter binds it. *)
Definition stored_as (f : Field) (raw : value) (x : sqlval) : Prop :=
  ∃ v, deserialize f raw = inr v ∧ adapt v = Return x.

Definition bound_ok (r : resource) (d : dict) (k : string) (x : sqlval) : Prop :=
  x ≠ NULL
  ∧ ∃ f raw, load_fields (schema_of r) !! k = Some f ∧ d !! k = Some raw
             ∧ stored_as f raw x.

(** The six create and update handlers share one shape after the
    validation: open a connection, read the bound keys from a dict in
    order, execute, commit, close, answer. *)
Fixpoint getitems (d : value) (keys : list string) : M (list value) :=
  match keys with
  | [] => mret []
  | k :: ks => v ← getitem d k; vs ← getitems d ks; mret (v :: vs)
  end.

Definition write (sql : statement) (keys : list string) (extra : list value)
    (dados : value) (ok : response) : M response :=
  conn ← get_db_connection;
  vs ← getitems dados keys;
  cursor ← execute conn sql (vs ++ extra)%list;
  commit cursor.1;;
  close cursor.1;;
  mret ok.

Definition insert_of (r : resource) : statement := INSERT_INTO (table_of r) (bound_keys r).
Definition update_of (r : resource) : statement := UPDATE_SET (table_of r) (bound_keys r).

(** The dict a write handler reads its values from: the raw body in the
    user handlers, the loaded dict in the others. *)
Definition source_of (r : resource) (request_json loaded : value) : value :=
  match r with Usuarios => request_json | _ => loaded end.

(** ** Sample requests and states *)

Definition mundo (db : database) : world := World db [] 0 [].

(** The body of the specification's example for POST /projetos, and what
    [ProjetoSchema] loads from it. *)
Definition campos_P1 : dict :=
  list_to_map [("nome", VStr "P1"); ("descricao", VStr "d");
               ("data_inicio", VStr "2024-01-01"); ("data_fim", VStr "2024-02-01")].

Definition dados_P1 : dict :=
  list_to_map [("nome", VStr "P1"); ("descricao", VStr "d");
               ("data_inicio", VDate (Date 2024 1 1)); ("data_fim", VDate (Date 2024 2 1))].

Definition campos_so_nome : dict := {[ "nome" := VStr "P" ]}.

Definition campos_T1 : dict :=
  list_to_map [("titulo", VStr "T1"); ("descricao", VStr "d");
               ("status", VStr "Em andamento"); ("prioridade", VStr "Alta");
               ("data_vencimento", VStr "2023-11-10");
               ("projeto_id", VInt 1); ("responsavel_id", VInt 1)].

Definition campos_status_minusculo : dict := <["status" := VStr "pendente"]> campos_T1.


Definition campos_ana : dict :=
  list_to_map [("nome", VStr "Ana"); ("email", VStr "ana@example.com");
               ("senha", VStr "segredo")].

Definition campos_bia : dict :=
  list_to_map [("nome", VStr "Bia"); ("email", VStr "bia@example.com");
               ("senha", VStr "segredo2")].


(** The state after POST /usuarios of Ana on the fresh database, and after
    POST /usuarios of Bia on top of it. *)
Definition mundo_com_ana : world :=
  (url_map (POST Usuarios (VDict campos_ana)) (mundo banco)).2.

Definition mundo_com_ana_e_bia : world :=
  (url_map (POST Usuarios (VDict campos_bia)) mundo_com_ana).2.

Definition email_duplicado : exception :=
  IntegrityError "UNIQUE constraint failed: TB_USUARIOS.email".

(** ** Vocabulary and samples of the further properties *)

(** The keys a schema declares with [required=True]. *)
Definition required_keys (r : resource) : list string :=
  (filter (fun nf => required nf.2 = true) (declared_fields (schema_of r))).*1.

(** The 400 a create or update answers with, and the world it leaves. *)
Definition rejects (x : result response * world) (w : world) (e : messages) : Prop :=
  x = (Return (Response (field_errors e) 400), logged w (Erro_de_validacao e)).

(** [validate=validate.Length(min=a, max=b)] on a string field of the schema. *)
Definition length_limits (r : resource) (k : string) : option (nat * option nat) :=
  match load_fields (schema_of r) !! k with
  | Some f =>
      match kind f, validators f with
      | fields.String, [validate.Length (Some a) b] => Some (a, b)
      | _, _ => None
      end
  | None => None
  end.

(** [validate=validate.OneOf(cs)] on a string field of the schema. *)
Definition choices_of (r : resource) (k : string) : option (list string) :=
  match load_fields (schema_of r) !! k with
  | Some f =>
      match kind f, validators f with
      | fields.String, [validate.OneOf cs] => Some cs
      | _, _ => None
      end
  | None => None
  end.

(** [n] is between [min] and [max], both included; no [max] is no upper limit. *)
Definition within (a : nat) (b : option nat) (n : nat) : Prop :=
  (a ≤ n)%nat ∧ ∀ m, b = Some m → (n ≤ m)%nat.

(** Ana with a password of exactly six characters. *)
Definition campos_senha_6 : dict := <["senha" := VStr "123456"]> campos_ana.

(** The task with its priority written without the accent. *)
Definition campos_prioridade_media : dict := <["prioridade" := VStr "Media"]> campos_T1.

(** The row of Ana as TB_USUARIOS holds it, and a body that renames her. *)
Definition linha_ana : cells :=
  list_to_map [("nome", TEXT "Ana"); ("email", TEXT "ana@example.com");
               ("senha", TEXT "segredo")].

Definition campos_ana_maria : dict := <["nome" := VStr "Ana Maria"]> campos_ana.

(** Requests served one after the other. *)
Fixpoint run (reqs : list request) (w : world) : world :=
  match reqs with
  | [] => w
  | req :: rest => run rest (url_map req w).2
  end.

(** What the CREATE TABLE statements promise of a table: rowids between 1
    and the AUTOINCREMENT counter, every column present in every row, no
    NULL in a NOT NULL column, no value twice in a UNIQUE column. *)
Definition table_consistent (t : table_name) (tb : table) : Prop :=
  (∀ i c, rows tb !! i = Some c → 1 ≤ i ≤ seq tb)
  ∧ (∀ i c col, rows tb !! i = Some c → col ∈ columns t →
       ∃ x, c !! col_name col = Some x ∧ (not_null col = true → x ≠ NULL))
  ∧ (∀ i j ci cj col x, rows tb !! i = Some ci → rows tb !! j = Some cj →
       col ∈ columns t → unique col = true → x ≠ NULL →
       ci !! col_name col = Some x → cj !! col_name col = Some x → i = j).

Definition consistent (db : database) : Prop :=
  ∀ t, table_consistent t (get_table t db).

(** What one statement does to its table. *)
Inductive table_change (t : table_name) (tb tb' : table) : Prop :=
  | unchanged : tb' = tb → table_change t tb tb'
  | inserted c :
      tb' = Table (<[next_rowid tb := c]> (rows tb)) (next_rowid tb) →
      (∀ col, col ∈ columns t → is_Some (c !! col_name col)) →
      check_constraints t (rows tb) c = Return tt →
      table_change t tb tb'
  | updated i old c :
      rows tb !! i = Some old →
      tb' = Table (<[i := c]> (rows tb)) (seq tb) →
      (∀ k, is_Some (old !! k) → is_Some (c !! k)) →
      check_constraints t (delete i (rows tb)) c = Return tt →
      table_change t tb tb'
  | deleted i :
      tb' = Table (delete i (rows tb)) (seq tb) →
      table_change t tb tb'.

(** The project with a start date written without leading zeros, and the
    task with its project given as text. *)
Definition campos_data_curta : dict := <["data_inicio" := VStr "2024-1-5"]> campos_P1.

Definition campos_projeto_texto : dict := <["projeto_id" := VStr "7"]> campos_T1.

(** * Statements *)

Open Scope list_scope.

(** ** The library model on sample inputs *)

Example len_counts_code_points : Text.len "Concluída" = 9%nat.
Proof. reflexivity. Qed.

Example from_iso_date_padded : utils.from_iso_date "2024-01-01" = Some (Date 2024 1 1).
Proof. reflexivity. Qed.

Example from_iso_date_unpadded : utils.from_iso_date "2024-1-5" = Some (Date 2024 1 5).
Proof. reflexivity. Qed.

Example from_iso_date_no_such_day : utils.from_iso_date "2023-02-29" = None.
Proof. reflexivity. Qed.

Example isoformat_pads : datetime.isoformat (Date 2024 1 5) = "2024-01-05".
Proof. reflexivity. Qed.

Example int_of_str_blanks_and_sign : builtins.int_of_str " -12 " = Some (-12).
Proof. reflexivity. Qed.

Example Email_ok_address : validate.Email_ok "ana@example.com" = true.
Proof. reflexivity. Qed.

Example Email_ok_no_at : validate.Email_ok "not-an-email" = false.
Proof. reflexivity. Qed.

Example Email_ok_empty_atom : validate.Email_ok "a..b@example.com" = false.
Proof. reflexivity. Qed.

Example load_P1 : load ProjetoSchema (VDict campos_P1) = Return (VDict dados_P1).
Proof. vm_compute. reflexivity. Qed.

(** ** The requests of test_auto_api.py, replayed *)

Example test_criar_projeto :
  returns (url_map (POST Projetos (VDict campos_P1)) (mundo banco))
    (mensagem "Projeto criado com sucesso!") 201.
Proof. vm_compute. reflexivity. Qed.

Example test_atualizar_projeto :
  returns (url_map (PUT Projetos 1 (VDict campos_P1))
             (url_map (POST Projetos (VDict campos_P1)) (mundo banco)).2)
    (mensagem "Projeto atualizado com sucesso!") 200.
Proof. vm_compute. reflexivity. Qed.

Example test_excluir_projeto :
  returns (url_map (DELETE Projetos 1)
             (url_map (POST Projetos (VDict campos_P1)) (mundo banco)).2)
    (mensagem "Projeto excluído com sucesso!") 200.
Proof. vm_compute. reflexivity. Qed.

Example test_criar_tarefa :
  returns (url_map (POST Tarefas (VDict campos_T1)) (mundo banco))
    (mensagem "Tarefa criada com sucesso!") 201.
Proof. vm_compute. reflexivity. Qed.

Example test_criar_usuario :
  returns (url_map (POST Usuarios (VDict campos_ana)) (mundo banco))
    (mensagem "Usuário criado com sucesso!") 201.
Proof. vm_compute. reflexivity. Qed.

Example test_atualizar_usuario :
  returns (url_map (PUT Usuarios 1 (VDict campos_bia)) mundo_com_ana)
    (mensagem "Usuário atualizado com sucesso!") 200.
Proof. vm_compute. reflexivity. Qed.

Example test_listar_usuarios :
  returns (url_map (GET Usuarios) mundo_com_ana)
    (array [ <["id" := INTEGER 1]>
               (list_to_map [("nome", TEXT "Ana"); ("email", TEXT "ana@example.com");
                             ("senha", TEXT "segredo")]) ]) 200.
Proof. vm_compute. reflexivity. Qed.


(** ** marshmallow: what [load] returns *)

Lemma key_errors_diag u a b : diag_None (key_errors u) a b = key_errors u a b.
Proof. by destruct a, b. Qed.

Lemma key_value_diag u a b : diag_None (key_value u) a b = key_value u a b.
Proof. by destruct a, b. Qed.

Lemma load_cases s b :
  (∃ v, load s b = Return v) ∨ (∃ e, load s b = Raise (ValidationError e)).
Proof.
  unfold load. destruct b; eauto. case_decide; eauto.
Qed.

Lemma load_Raise_lookup s d e k :
  load s (VDict d) = Raise (ValidationError e) →
  e !! k = key_errors (unknown s) (load_fields s !! k) (d !! k).
Proof.
  unfold load. case_decide; [done|]. intros [= <-].
  by rewrite lookup_merge, key_errors_diag.
Qed.

Lemma load_Return_inv s d v :
  load s (VDict d) = Return v →
  ∃ dados, v = VDict dados
    ∧ ∀ k, key_errors (unknown s) (load_fields s !! k) (d !! k) = None
         ∧ dados !! k = key_value (unknown s) (load_fields s !! k) (d !! k).
Proof.
  unfold load. case_decide as He; [|done]. intros [= <-].
  eexists; split; [done|]. intros k. split.
  - rewrite <- key_errors_diag, <- lookup_merge, He. apply lookup_empty.
  - by rewrite lookup_merge, key_value_diag.
Qed.


Lemma load_key_error s d k errs :
  key_errors (unknown s) (load_fields s !! k) (d !! k) = Some errs →
  ∃ e, load s (VDict d) = Raise (ValidationError e) ∧ e !! k = Some errs.
Proof.
  intros Hk. unfold load. case_decide as He.
  - exfalso. assert (merge (key_errors (unknown s)) (load_fields s) d !! k = Some errs) as Hl
      by by rewrite lookup_merge, key_errors_diag.
    by rewrite He, lookup_empty in Hl.
  - eexists; split; [done|]. by rewrite lookup_merge, key_errors_diag.
Qed.

Lemma try_load_Raise s b e w :
  load s b = Raise (ValidationError e) →
  try_load s b w
  = (Return (inr (Response (field_errors e) 400)), logged w (Erro_de_validacao e)).
Proof.
  intros H. unfold try_load, try_except, get_json, lift, mbind, M_bind, mret, M_ret.
  by rewrite H.
Qed.

Lemma try_load_Return s b v w :
  load s b = Return v → try_load s b w = (Return (inl v), w).
Proof.
  intros H. unfold try_load, try_except, get_json, lift, mbind, M_bind, mret, M_ret.
  by rewrite H.
Qed.

(** A body that [get_json] does not return: the exception is not one the
    [except] clauses name. *)
Lemma try_load_not_JSON s (p : payload) w :
  (∀ b, p ≠ Parsed b) →
  ∃ e, try_load s p w = (Raise e, w) ∧ get_json p w = (Raise e, w)
       ∧ (e = BadRequest ∨ e = UnsupportedMediaType).
Proof.
  intros H. destruct p as [b| |]; [by destruct (H b)| |].
  - exists UnsupportedMediaType. auto.
  - exists BadRequest. auto.
Qed.

Ltac handler :=
  unfold url_map, criar_projeto, atualizar_projeto, criar_tarefa, atualizar_tarefa,
    criar_usuario, atualizar_usuario; unfold mbind, M_bind at 1.

Lemma POST_invalid r b e w :
  load (schema_of r) b = Raise (ValidationError e) →
  url_map (POST r b) w
  = (Return (Response (field_errors e) 400), logged w (Erro_de_validacao e)).
Proof.
  intros H. destruct r; handler; by rewrite (try_load_Raise _ _ _ _ H).
Qed.

Lemma PUT_invalid r id b e w :
  load (schema_of r) b = Raise (ValidationError e) →
  url_map (PUT r id b) w
  = (Return (Response (field_errors e) 400), logged w (Erro_de_validacao e)).
Proof.
  intros H. destruct r; handler; by rewrite (try_load_Raise _ _ _ _ H).
Qed.

Lemma payload_cases (p : payload) : (∃ b, p = Parsed b) ∨ (∀ b, p ≠ Parsed b).
Proof. destruct p; eauto. Qed.

Lemma POST_not_JSON r (p : payload) w :
  (∀ b, p ≠ Parsed b) →
  ∃ e, url_map (POST r p) w = (Raise e, w) ∧ (e = BadRequest ∨ e = UnsupportedMediaType).
Proof.
  intros H. destruct (try_load_not_JSON (schema_of r) p w H) as (e & He & _ & Hor).
  exists e. split; [|done]. destruct r; handler; simpl in He; by rewrite He.
Qed.

Lemma PUT_not_JSON r id (p : payload) w :
  (∀ b, p ≠ Parsed b) →
  ∃ e, url_map (PUT r id p) w = (Raise e, w) ∧ (e = BadRequest ∨ e = UnsupportedMediaType).
Proof.
  intros H. destruct (try_load_not_JSON (schema_of r) p w H) as (e & He & _ & Hor).
  exists e. split; [|done]. destruct r; handler; simpl in He; by rewrite He.
Qed.

Lemma not_JSON_raises (p : payload) :
  (∀ b, p ≠ Parsed b) →
  ∃ e, (e = BadRequest ∨ e = UnsupportedMediaType)
       ∧ ∀ r id w, url_map (POST r p) w = (Raise e, w)
                   ∧ url_map (PUT r id p) w = (Raise e, w).
Proof.
  intros H. destruct p as [b| |]; [by destruct (H b)| |].
  - exists UnsupportedMediaType. split; [auto|]. intros r id w. by destruct r.
  - exists BadRequest. split; [auto|]. intros r id w. by destruct r.
Qed.

Lemma id_not_a_load_field r : load_fields (schema_of r) !! "id" = None.
Proof. by destruct r. Qed.

Lemma unknown_RAISE r : unknown (schema_of r) = RAISE.
Proof. by destruct r. Qed.

(** ** SQLite: frames, fresh rowids, absent rows *)

Lemma get_set_table_eq t tb db : get_table t (set_table t tb db) = tb.
Proof. by destruct t. Qed.

Lemma get_set_table_ne t t' tb db :
  t' ≠ t → get_table t' (set_table t tb db) = get_table t' db.
Proof. by destruct t, t'. Qed.

Lemma set_get_table t db r s :
  rows (get_table t db) = r → seq (get_table t db) = s → set_table t (Table r s) db = db.
Proof. intros <- <-. by destruct t, db as [[] [] []]. Qed.

Lemma step_frame db s ps db' rs t' :
  step db s ps = Return (db', rs) → t' ≠ target s →
  get_table t' db' = get_table t' db.
Proof.
  intros H Ht. destruct s; simpl in *;
    repeat (case_match; simplify_eq; try done).
  all: by try apply get_set_table_ne.
Qed.

Lemma max_rowid_ge (m : gmap Z cells) i c : m !! i = Some c → i ≤ max_rowid m.
Proof.
  intros H. apply elem_of_map_to_list in H. unfold max_rowid.
  induction (map_to_list m) as [|[j x] l IH]; csimpl.
  - by apply elem_of_nil in H.
  - apply elem_of_cons in H as [[= <- <-]|H]; [lia|]. specialize (IH H). lia.
Qed.

Lemma next_rowid_fresh tb : rows tb !! next_rowid tb = None.
Proof.
  destruct (rows tb !! next_rowid tb) eqn:H; [|done].
  apply max_rowid_ge in H. unfold next_rowid in H. lia.
Qed.

(** The rows of a SELECT: each row of the table once, by increasing rowid. *)
Lemma in_rowid_order_Permutation (m : gmap Z cells) : in_rowid_order m ≡ₚ map_to_list m.
Proof. apply merge_sort_Permutation. Qed.

Lemma elem_of_in_rowid_order (m : gmap Z cells) i c :
  (i, c) ∈ in_rowid_order m ↔ m !! i = Some c.
Proof. by rewrite in_rowid_order_Permutation, elem_of_map_to_list. Qed.

Lemma length_in_rowid_order (m : gmap Z cells) : length (in_rowid_order m) = size m.
Proof. by rewrite in_rowid_order_Permutation, length_map_to_list. Qed.

Lemma in_rowid_order_increasing (m : gmap Z cells) :
  StronglySorted (fun x y => x.1 < y.1) (in_rowid_order m).
Proof.
  assert (StronglySorted rowid_le (in_rowid_order m)) as Hs.
  { apply StronglySorted_merge_sort.
    - intros x y z. unfold rowid_le. lia.
    - intros x y. unfold rowid_le. lia. }
  assert (NoDup (in_rowid_order m).*1) as Hn.
  { rewrite in_rowid_order_Permutation. apply NoDup_fst_map_to_list. }
  induction Hs as [|x l Hs IH Hx]; [constructor|].
  cbn [fmap list_fmap] in Hn. apply NoDup_cons in Hn as [Hnotin Hn].
  constructor; [by apply IH|].
  apply Forall_forall. intros y Hy. rewrite Forall_forall in Hx.
  specialize (Hx y Hy). unfold rowid_le in Hx.
  assert (x.1 ≠ y.1); [|lia].
  intros E. apply Hnotin. rewrite E. by apply list_elem_of_fmap_2.
Qed.

Lemma step_DELETE_absent db t i :
  rows (get_table t db) !! i = None →
  step db (DELETE_FROM t) [INTEGER i] = Return (db, []).
Proof.
  intros H. simpl. rewrite (delete_id _ _ H). by rewrite (set_get_table t db _ _ eq_refl eq_refl).
Qed.

Lemma step_UPDATE_absent db t cols ps i :
  length ps = length cols → check_columns t cols = Return tt →
  rows (get_table t db) !! i = None →
  step db (UPDATE_SET t cols) (ps ++ [INTEGER i]) = Return (db, []).
Proof.
  intros Hl Hc H. unfold step.
  rewrite length_app, Hl, Nat.add_1_r, Nat.eqb_refl, Hc, last_snoc. simpl.
  by rewrite H.
Qed.

(** ** The handlers, run *)

Lemma execute_Return conn sql ps xs db' rs w :
  adapt_all ps = Return xs → step (view conn) sql xs = Return (db', rs) →
  execute conn sql ps w = (Return (Connection db', rs), executed w sql).
Proof. intros H1 H2. unfold execute. by rewrite H1, H2. Qed.


Ltac run :=
  cbv beta iota delta [url_map listar_projetos listar_tarefas listar_usuarios
    excluir_projeto excluir_tarefa excluir_usuario boas_vindas
    mbind M_bind mret M_ret get_db_connection close commit fetchall dict_of_Row
    jsonify with_status fst snd].

Lemma adapt_int64 n : int64 n → adapt (VInt n) = Return (INTEGER n).
Proof. intros H. unfold adapt. by rewrite decide_True. Qed.

Lemma adapt_too_large n : ¬ int64 n → adapt (VInt n) = Raise too_large.
Proof. intros H. unfold adapt. by rewrite decide_False. Qed.

Lemma DELETE_run r id w :
  int64 id →
  url_map (DELETE r id) w
  = (Return (Response (mensagem (excluido r)) 200),
     committed (executed (connected w) (DELETE_FROM (table_of r)))
       (set_table (table_of r)
          (Table (delete id (rows_of r w)) (seq (get_table (table_of r) (database_db w))))
          (database_db w))).
Proof.
  intros H. destruct r; run; unfold execute; cbn [adapt_all]; by rewrite (adapt_int64 _ H).
Qed.

(** An identifier that SQLite cannot hold: the parameter is not bound, no
    statement is executed. *)
Lemma DELETE_too_large r id w :
  ¬ int64 id → url_map (DELETE r id) w = (Raise too_large, connected w).
Proof.
  intros H. destruct r; run; unfold execute; cbn [adapt_all];
    by rewrite (adapt_too_large _ H).
Qed.

Lemma GET_run r w :
  url_map (GET r) w
  = (Return (Response (array ((fun x => Row x.1 x.2) <$> in_rowid_order (rows_of r w))) 200),
     executed (connected w) (SELECT_ALL (table_of r))).
Proof. destruct r; run; unfold execute; simpl; by rewrite map_id. Qed.

Ltac getitem_cases :=
  unfold getitem;
  match goal with
  | |- context [match ?x with VDict _ => _ | _ => _ end] => destruct x
  end; try reflexivity;
  repeat (match goal with
          | |- context [match ?m !! ?k with _ => _ end] => destruct (m !! k)
          end; try reflexivity).

Ltac write_shape :=
  unfold write, getitems, insert_of, update_of, bound_keys, source_of; simpl;
  unfold mbind, M_bind, mret, M_ret, get_db_connection; getitem_cases.

Lemma POST_valid r b v w :
  load (schema_of r) b = Return v →
  url_map (POST r b) w
  = write (insert_of r) (bound_keys r) [] (source_of r b v)
      (Response (mensagem (criado r)) 201) w.
Proof.
  intros H. destruct r; handler; rewrite (try_load_Return _ _ _ _ H); write_shape.
Qed.

Lemma PUT_valid r id b v w :
  load (schema_of r) b = Return v →
  url_map (PUT r id b) w
  = write (update_of r) (bound_keys r) [VInt id] (source_of r b v)
      (Response (mensagem (atualizado r)) 200) w.
Proof.
  intros H. destruct r; handler; rewrite (try_load_Return _ _ _ _ H); write_shape.
Qed.

Lemma getitems_Return m ks vs w :
  Forall2 (fun k v => m !! k = Some v) ks vs →
  getitems (VDict m) ks w = (Return vs, w).
Proof.
  intros H. revert w. induction H as [|k v ks vs Hk _ IH]; intros w; [done|].
  simpl. unfold mbind, M_bind. simpl. rewrite Hk. unfold mret, M_ret.
  by rewrite IH.
Qed.

Lemma getitems_cases d ks w :
  (∃ vs, getitems d ks w = (Return vs, w)) ∨ (∃ e, getitems d ks w = (Raise e, w)).
Proof.
  revert w. induction ks as [|k ks IH]; intros w; simpl; [by left; eexists|].
  unfold mbind, M_bind, getitem.
  destruct d; try (by right; eexists).
  destruct (d !! k); [|by right; eexists].
  unfold mret, M_ret. destruct (IH w) as [[vs Hv]|[e He]]; rewrite ?Hv, ?He; [left|right]; by eexists.
Qed.

Lemma write_Return sql keys extra m ok vs xs db' rs w :
  Forall2 (fun k v => m !! k = Some v) keys vs →
  adapt_all (vs ++ extra) = Return xs →
  step (database_db w) sql xs = Return (db', rs) →
  write sql keys extra (VDict m) ok w
  = (Return ok, committed (executed (connected w) sql) db').
Proof.
  intros Hk Ha Hs. unfold write, mbind, M_bind, get_db_connection.
  rewrite (getitems_Return _ _ _ _ Hk).
  by erewrite execute_Return by done.
Qed.





(** ** Loaded values and the cells they become *)

Lemma deserialize_inr f raw v :
  deserialize f raw = inr v →
  match kind f with
  | fields.String | fields.Email => raw = v ∧ ∃ s, v = VStr s
  | fields.Integer => ∃ n, v = VInt n
  | fields.Date => ∃ dt, v = VDate dt
  end.
Proof.
  unfold deserialize. destruct raw; try done;
    (destruct (fields.deserialize_type (kind f) _) as [v'|] eqn:Ht; [|done]);
    (destruct (run_validators f v'); [|done]); intros [= <-];
    destruct (kind f); simpl in Ht; simplify_eq; eauto;
    try (by destruct (builtins.int_of_str _); simplify_eq/=; eauto);
    try (by destruct (utils.from_iso_date _); simplify_eq/=; eauto).
Qed.

Lemma deserialize_adapt f raw v :
  deserialize f raw = inr v → (∀ n, v = VInt n → int64 n) →
  ∃ x, adapt v = Return x ∧ x ≠ NULL.
Proof.
  intros H Hn. apply deserialize_inr in H.
  destruct (kind f).
  - destruct H as [n ->]. exists (INTEGER n). by rewrite (adapt_int64 n (Hn n eq_refl)).
  - destruct H as [_ [s ->]]. by eexists.
  - destruct H as [dt ->]. by eexists.
  - destruct H as [_ [s ->]]. by eexists.
Qed.


Lemma loaded_key s d dados k f raw :
  load s (VDict d) = Return (VDict dados) →
  load_fields s !! k = Some f → d !! k = Some raw →
  ∃ v, deserialize f raw = inr v ∧ dados !! k = Some v.
Proof.
  intros H Hf Hd. apply load_Return_inv in H as (dados' & [= <-] & H).
  destruct (H k) as [He Hv]. rewrite Hf, Hd in He, Hv. simpl in He, Hv.
  destruct (deserialize f raw); [done|]. eauto.
Qed.


(** The load fields are the columns the statements bind. *)
Lemma load_fields_bound r k :
  is_Some (load_fields (schema_of r) !! k) ↔ k ∈ bound_keys r.
Proof.
  split.
  - intros [f H]. apply elem_of_list_to_map_2, list_elem_of_filter in H as [Hd H].
    destruct r; simpl in H;
      repeat (apply elem_of_cons in H as [[= -> ->]|H];
              [first [discriminate Hd | apply (bool_decide_unpack _); exact I]|]);
      by apply elem_of_nil in H.
  - intros H. destruct r; unfold bound_keys in H; simpl in H;
      repeat (apply elem_of_cons in H as [->|H]; [by eexists|]);
      by apply elem_of_nil in H.
Qed.

Lemma text_fields_of_usuario k f :
  load_fields UsuarioSchema !! k = Some f →
  kind f = fields.String ∨ kind f = fields.Email.
Proof.
  intros H. apply elem_of_list_to_map_2, list_elem_of_filter in H as [Hd H].
  simpl in H.
  repeat (apply elem_of_cons in H as [[= -> ->]|H]; [simpl in *; auto; done|]).
  by apply elem_of_nil in H.
Qed.

(** ** INSERT of a validated body *)



Lemma names_NoDup t : NoDup (col_name <$> columns t).
Proof. destruct t; by apply (bool_decide_unpack _). Qed.

Lemma check_columns_bound r : check_columns (table_of r) (bound_keys r) = Return tt.
Proof. destruct r; vm_compute; reflexivity. Qed.

Lemma new_cells_lookup t (given : cells) col :
  col ∈ columns t →
  new_cells t given !! col_name col
  = Some (default (default_value col) (given !! col_name col)).
Proof.
  intros H. unfold new_cells. apply elem_of_list_to_map_1.
  - rewrite <- list_fmap_compose. apply names_NoDup.
  - apply list_elem_of_fmap. by exists col.
Qed.



Lemma collect (P : string → sqlval → Prop) keys (src : dict) :
  (∀ k, k ∈ keys → ∃ v x, src !! k = Some v ∧ adapt v = Return x ∧ P k x) →
  ∃ vs xs, Forall2 (fun k v => src !! k = Some v) keys vs
         ∧ adapt_all vs = Return xs ∧ Forall2 P keys xs.
Proof.
  induction keys as [|k ks IH]; intros H.
  - exists [], []. by repeat constructor.
  - destruct (H k) as (v & x & Hv & Hx & HP); [apply list_elem_of_here|].
    destruct IH as (vs & xs & Hvs & Hxs & HPs).
    { intros k' Hk'. apply H. by apply list_elem_of_further. }
    exists (v :: vs), (x :: xs). repeat split; try by constructor.
    simpl. by rewrite Hx, Hxs.
Qed.



Lemma source_values r d v :
  load (schema_of r) (VDict d) = Return v →
  (∀ k, k ∈ bound_keys r → is_Some (d !! k)) →
  integers_fit v →
  ∃ m, source_of r (VDict d) v = VDict m
     ∧ ∀ k, k ∈ bound_keys r →
         ∃ v' x, m !! k = Some v' ∧ adapt v' = Return x ∧ bound_ok r d k x.
Proof.
  intros Hload Hall Hfit.
  destruct (load_Return_inv _ _ _ Hload) as (dados & -> & _).
  exists (match r with Usuarios => d | _ => dados end). split; [by destruct r|].
  intros k Hk. destruct (Hall k Hk) as [raw Hraw].
  apply load_fields_bound in Hk as [f Hf].
  destruct (loaded_key _ _ _ _ _ _ Hload Hf Hraw) as (v' & Hd & Hv').
  destruct (deserialize_adapt _ _ _ Hd) as (x & Hx & Hnn).
  { intros n ->. by apply (Hfit dados k n). }
  exists v', x. split; [|split; [done|]].
  - destruct r; try done.
    apply text_fields_of_usuario in Hf. apply deserialize_inr in Hd.
    destruct Hf as [Hf|Hf]; rewrite Hf in Hd; by destruct Hd as [<- _].
  - split; [done|]. exists f, raw. repeat split; try done. by exists v'.
Qed.


Lemma set_set_table t tb tb' db :
  set_table t tb (set_table t tb' db) = set_table t tb db.
Proof. by destruct t. Qed.

(** ** Field errors of the user and task schemas *)



Lemma field_status :
  load_fields TarefaSchema !! "status"
  = Some (validated_field fields.String
            [validate.OneOf ["Pendente"; "Em andamento"; "Concluída"]]).
Proof. reflexivity. Qed.



Lemma status_error v :
  (∀ s, v = VStr s → s ∉ ["Pendente"; "Em andamento"; "Concluída"]) →
  is_Some (key_errors RAISE (load_fields TarefaSchema !! "status") (Some v)).
Proof.
  intros H. rewrite field_status. unfold key_errors, deserialize.
  destruct v; simpl; try by eexists.
  unfold run_validators. simpl.
  rewrite bool_decide_eq_false_2 by by apply H. by eexists.
Qed.

(** ** Updates and deletes of rows that are not there *)

Lemma adapt_all_snoc vs xs id :
  int64 id →
  adapt_all vs = Return xs → adapt_all (vs ++ [VInt id]) = Return (xs ++ [INTEGER id]).
Proof.
  intros Hid. revert xs. induction vs as [|v vs IH]; intros xs; cbn [adapt_all app].
  - intros [= <-]. by rewrite (adapt_int64 _ Hid).
  - destruct (adapt v); [|by destruct (adapt_all vs)].
    destruct (adapt_all vs) as [ys|]; [|done]. intros [= <-].
    by rewrite (IH ys eq_refl).
Qed.

(** [adapt_all] stops at the first value it cannot bind. *)
Lemma adapt_all_snoc_too_large vs xs id :
  ¬ int64 id →
  adapt_all vs = Return xs → adapt_all (vs ++ [VInt id]) = Raise too_large.
Proof.
  intros Hid. revert xs. induction vs as [|v vs IH]; intros xs; cbn [adapt_all app].
  - intros _. by rewrite (adapt_too_large _ Hid).
  - destruct (adapt v); [|by destruct (adapt_all vs)].
    destruct (adapt_all vs) as [ys|]; [|done]. intros _.
    by rewrite (IH ys eq_refl).
Qed.

Lemma DELETE_absent (r : resource) (id : Z) (w : world) :
  int64 id →
  rows_of r w !! id = None →
  url_map (DELETE r id) w
  = (Return (Response (mensagem (excluido r)) 200),
     executed (connected w) (DELETE_FROM (table_of r))).
Proof.
  intros Hid H. rewrite (DELETE_run _ _ _ Hid), (delete_id _ _ H).
  unfold rows_of. by rewrite (set_get_table _ _ _ _ eq_refl eq_refl).
Qed.

Lemma PUT_absent (r : resource) (id : Z) (d : dict) (v : value) (w : world) :
  load (schema_of r) (VDict d) = Return v →
  (∀ k, k ∈ bound_keys r → is_Some (d !! k)) →
  integers_fit v → int64 id →
  rows_of r w !! id = None →
  url_map (PUT r id (VDict d)) w
  = (Return (Response (mensagem (atualizado r)) 200),
     executed (connected w) (update_of r)).
Proof.
  intros Hload Hall Hfit Hint Hid.
  destruct (source_values _ _ _ Hload Hall Hfit) as (m & Hsrc & Hm).
  destruct (collect (bound_ok r d) _ _ Hm) as (vs & xs & Hvs & Hxs & Hok).
  rewrite (PUT_valid _ _ _ _ _ Hload), Hsrc.
  erewrite write_Return; [|done|by apply adapt_all_snoc|].
  - reflexivity.
  - apply step_UPDATE_absent; [|apply check_columns_bound|done].
    symmetry. eapply Forall2_length; eauto.
Qed.

(** ** The statuses a handler returns *)

Lemma write_result sql keys extra dados ok w r :
  (write sql keys extra dados ok w).1 = Return r → r = ok.
Proof.
  unfold write, mbind, M_bind, get_db_connection.
  destruct (getitems_cases dados keys (connected w)) as [[vs H]|[e H]];
    unfold connected in H; rewrite H; [|done].
  unfold execute. destruct (adapt_all _); [|done].
  destruct (step _ _ _) as [[db' rs]|e]; simpl; [|done]. by intros [= <-].
Qed.

(** Every response a handler returns is a 200, a 201 or a 400: there is no
    404, and the 500 of the [except sqlite3.Error] clauses is never reached. *)
Lemma handler_status (req : request) (w : world) (r : response) :
  (url_map req w).1 = Return r → status r = 200 ∨ status r = 201 ∨ status r = 400.
Proof.
  destruct req as [s|s p|s id p|s id|].
  - rewrite GET_run. intros [= <-]. auto.
  - destruct (payload_cases p) as [[b ->]|Hp].
    + destruct (load_cases (schema_of s) b) as [[v H]|[e H]].
      * rewrite (POST_valid _ _ _ _ H). intros Hr. apply write_result in Hr as ->. auto.
      * rewrite (POST_invalid _ _ _ _ H). intros [= <-]. auto.
    + destruct (POST_not_JSON s p w Hp) as (e & -> & _). done.
  - destruct (payload_cases p) as [[b ->]|Hp].
    + destruct (load_cases (schema_of s) b) as [[v H]|[e H]].
      * rewrite (PUT_valid _ _ _ _ _ H). intros Hr. apply write_result in Hr as ->. auto.
      * rewrite (PUT_invalid _ _ _ _ _ H). intros [= <-]. auto.
    + destruct (PUT_not_JSON s id p w Hp) as (e & -> & _). done.
  - destruct (decide (int64 id)) as [Hid|Hid].
    + rewrite (DELETE_run _ _ _ Hid). intros [= <-]. auto.
    + by rewrite (DELETE_too_large _ _ _ Hid).
  - intros [= <-]. auto.
Qed.

(** ** What a write binds *)



Lemma adapt_all_elem vs xs v :
  adapt_all vs = Return xs → v ∈ vs → ∃ x, adapt v = Return x.
Proof.
  revert xs. induction vs as [|a vs IH]; intros xs H Hv.
  - by apply elem_of_nil in Hv.
  - cbn [adapt_all] in H. destruct (adapt a) as [x|] eqn:Ha; [|done].
    destruct (adapt_all vs) as [ys|] eqn:Hys; [|done].
    apply elem_of_cons in Hv as [->|Hv]; [by eexists|]. by apply (IH ys).
Qed.

Lemma adapt_VInt n x : adapt (VInt n) = Return x → int64 n.
Proof.
  intros H. destruct (decide (int64 n)) as [|Hn]; [done|].
  by rewrite (adapt_too_large _ Hn) in H.
Qed.








(** ** The claims *)

(** C1 (the code departs from the claim).  The claim: a create or update
    whose body passes validation and whose statement SQLite rejects answers
    500 with the fixed generic message and logs the error.  The code, run
    on a second user with Ana's email (POST) and on Bia taking Ana's email
    (PUT): the body passes [UsuarioSchema], the IntegrityError leaves the
    handler, the handler writes nothing to api.log, and Flask answers 500
    with the debugger's traceback (debug, as the source starts the server) or
    with its stock page, in neither case with the generic JSON message.  The
    [except sqlite3.Error] clause guards [schema.load] only: no handler, on
    any request and state, returns a response with status 500. *)
Theorem C1_storage_error_escapes (debug : bool) :
  let post := url_map (POST Usuarios (VDict campos_ana)) in
  let put := url_map (PUT Usuarios 2 (VDict campos_ana)) in
  load UsuarioSchema (VDict campos_ana) = Return (VDict campos_ana)
  ∧ (post mundo_com_ana).1 = Raise email_duplicado
  ∧ api_log (post mundo_com_ana).2 = api_log mundo_com_ana
  ∧ (put mundo_com_ana_e_bia).1 = Raise email_duplicado
  ∧ api_log (put mundo_com_ana_e_bia).2 = api_log mundo_com_ana_e_bia
  ∧ (dispatch_request debug post mundo_com_ana).1
    = (if debug then Traceback email_duplicado else Internal_Server_Error_page, 500)
  ∧ (dispatch_request debug post mundo_com_ana).1
    ≠ (JSON (mensagem "Erro interno do servidor"), 500)
  ∧ ∀ req w r, (url_map req w).1 = Return r → status r ≠ 500.
Proof.
  intros post put.
  split; [vm_compute; reflexivity|].
  split; [vm_compute; reflexivity|].
  split; [vm_compute; reflexivity|].
  split; [vm_compute; reflexivity|].
  split; [vm_compute; reflexivity|].
  split; [destruct debug; vm_compute; reflexivity|].
  split; [destruct debug; vm_compute; discriminate|].
  intros req w r H. destruct (handler_status req w r H) as [E|[E|E]]; rewrite E; discriminate.
Qed.




(** C3 (amended).  For every create or update request whose body includes
    an [id] key, whatever its value and the other keys, the handler returns
    400 with the error [Unknown field.] under [id], logs the validation
    error and leaves the database, the connection count and the statement
    trace as they were; [id] is not a load field of any schema, so it is
    never required on input and never read for the write. *)
Theorem C3_client_id_rejected (r : resource) (d : dict) (v : value) (id : Z) (w : world) :
  let body := VDict (<["id" := v]> d) in
  let rejected (x : result response * world) :=
    ∃ e, x = (Return (Response (field_errors e) 400), logged w (Erro_de_validacao e))
         ∧ e !! "id" = Some ["Unknown field."] in
  rejected (url_map (POST r body) w)
  ∧ rejected (url_map (PUT r id body) w)
  ∧ load_fields (schema_of r) !! "id" = None.
Proof.
  intros body rejected.
  destruct (load_key_error (schema_of r) (<["id" := v]> d) "id" ["Unknown field."])
    as (e & He & Hid).
  { by rewrite id_not_a_load_field, lookup_insert_eq, unknown_RAISE. }
  repeat split.
  - exists e. split; [|done]. by apply POST_invalid.
  - exists e. split; [|done]. by apply PUT_invalid.
  - apply id_not_a_load_field.
Qed.

(** C3 as stated fails: the example project is created (201) without an
    [id] and rejected (400) with one. *)
Lemma C3_counterexample :
  let w := mundo banco in
  let with_id := VDict (<["id" := VInt 7]> campos_P1) in
  let without_id := VDict (delete "id" (<["id" := VInt 7]> campos_P1)) in
  (url_map (POST Projetos with_id) w).1
    = Return (Response (field_errors {[ "id" := ["Unknown field."] ]}) 400)
  ∧ (url_map (POST Projetos without_id) w).1
    = Return (Response (mensagem "Projeto criado com sucesso!") 201)
  ∧ url_map (POST Projetos with_id) w ≠ url_map (POST Projetos without_id) w.
Proof.
  assert ((url_map (POST Projetos (VDict (<["id" := VInt 7]> campos_P1))) (mundo banco)).1
    = Return (Response (field_errors {[ "id" := ["Unknown field."] ]}) 400)) as H1
    by (vm_compute; reflexivity).
  assert ((url_map (POST Projetos (VDict (delete "id" (<["id" := VInt 7]> campos_P1))))
             (mundo banco)).1
    = Return (Response (mensagem "Projeto criado com sucesso!") 201)) as H2
    by (vm_compute; reflexivity).
  split; [done|split; [done|]]. intros H. rewrite H, H2 in H1. discriminate H1.
Qed.

(** C4 (the code departs from the claim).  The claim: an update with a
    valid body against an identifier that is not stored returns the 200
    success response.  The code, run on PUT /projetos/99 with the body
    [{nome: P}] on the fresh database: the body passes [ProjetoSchema], whose
    other fields are optional, no row 99 exists, and the handler raises
    KeyError on [dados['descricao']]; Flask answers 500. *)
Theorem C4_update_without_optional_fields (debug : bool) :
  let put := url_map (PUT Projetos 99 (VDict campos_so_nome)) in
  load ProjetoSchema (VDict campos_so_nome) = Return (VDict campos_so_nome)
  ∧ rows_of Projetos (mundo banco) !! 99 = None
  ∧ (put (mundo banco)).1 = Raise (KeyError "descricao")
  ∧ (dispatch_request debug put (mundo banco)).1
    = (if debug then Traceback (KeyError "descricao") else Internal_Server_Error_page, 500)
  ∧ ¬ returns (put (mundo banco)) (mensagem (atualizado Projetos)) 200.
Proof.
  repeat split; try (vm_compute; reflexivity); destruct debug; try (vm_compute; reflexivity);
    vm_compute; discriminate.
Qed.

(** C5 (amended).  For every resource, every state and every identifier
    that fits an SQLite INTEGER (every id a row can have), two deletes in a
    row both return 200 with the confirmation, and the second leaves the
    database exactly as the first left it (the row is gone after the
    first). *)
Theorem C5_delete_idempotent (r : resource) (id : Z) (w : world) :
  int64 id →
  let x1 := url_map (DELETE r id) w in
  let x2 := url_map (DELETE r id) x1.2 in
  returns x1 (mensagem (excluido r)) 200
  ∧ returns x2 (mensagem (excluido r)) 200
  ∧ database_db x2.2 = database_db x1.2
  ∧ rows_of r x1.2 !! id = None.
Proof.
  intros Hid x1 x2. unfold x2, x1. rewrite !(DELETE_run _ _ _ Hid).
  unfold returns, rows_of. simpl.
  rewrite !get_set_table_eq. simpl. rewrite delete_delete_eq, set_set_table.
  repeat split. apply lookup_delete_eq.
Qed.

(** Ana deleted twice. *)
Lemma C5_witness :
  let x1 := url_map (DELETE Usuarios 1) mundo_com_ana in
  let x2 := url_map (DELETE Usuarios 1) x1.2 in
  is_Some (rows_of Usuarios mundo_com_ana !! 1)
  ∧ returns x1 (mensagem (excluido Usuarios)) 200
  ∧ returns x2 (mensagem (excluido Usuarios)) 200
  ∧ database_db x2.2 = database_db x1.2
  ∧ rows_of Usuarios x1.2 !! 1 = None.
Proof.
  split; [vm_compute; by eexists|].
  apply (C5_delete_idempotent Usuarios 1 mundo_com_ana). vm_compute. split; [discriminate|reflexivity].
Defined.

(** C5 as stated fails: the route takes any run of digits as the
    identifier, and DELETE /projetos/9223372036854775808 does not return a
    success response: the identifier cannot be bound and the handler raises
    OverflowError, the first time and the second. *)
Lemma C5_counterexample :
  let x1 := url_map (DELETE Projetos 9223372036854775808) (mundo banco) in
  let x2 := url_map (DELETE Projetos 9223372036854775808) x1.2 in
  x1.1 = Raise too_large
  ∧ x2.1 = Raise too_large
  ∧ ¬ returns x1 (mensagem (excluido Projetos)) 200
  ∧ (dispatch_request true (url_map (DELETE Projetos 9223372036854775808)) (mundo banco)).1
    = (Traceback too_large, 500).
Proof.
  split; [vm_compute; reflexivity|]. split; [vm_compute; reflexivity|].
  split; [vm_compute; discriminate|]. vm_compute; reflexivity.
Qed.



(** C7.  For every task payload whose [status] value is not exactly one of
    Pendente, Em andamento, Concluída, create returns 400 with an error
    entry under [status]; the database is unchanged and no statement is
    executed. *)
Theorem C7_status_outside_set (d : dict) (v : value) (w : world) :
  d !! "status" = Some v →
  (∀ s, v = VStr s → s ∉ ["Pendente"; "Em andamento"; "Concluída"]) →
  ∃ e, url_map (POST Tarefas (VDict d)) w
       = (Return (Response (field_errors e) 400), logged w (Erro_de_validacao e))
     ∧ is_Some (e !! "status")
     ∧ database_db (url_map (POST Tarefas (VDict d)) w).2 = database_db w
     ∧ statements (url_map (POST Tarefas (VDict d)) w).2 = statements w.
Proof.
  intros Hd Hv. destruct (status_error v Hv) as [errs Herrs].
  rewrite <- Hd in Herrs.
  destruct (load_key_error TarefaSchema d "status" errs Herrs) as (e & He & Hs).
  exists e. rewrite (POST_invalid Tarefas _ _ _ He). by rewrite Hs.
Qed.

(** A status that differs from an allowed one by case only. *)
Lemma C7_witness :
  ∃ e, url_map (POST Tarefas (VDict campos_status_minusculo)) (mundo banco)
       = (Return (Response (field_errors e) 400),
          logged (mundo banco) (Erro_de_validacao e))
     ∧ is_Some (e !! "status")
     ∧ database_db (url_map (POST Tarefas (VDict campos_status_minusculo)) (mundo banco)).2
       = database_db (mundo banco)
     ∧ statements (url_map (POST Tarefas (VDict campos_status_minusculo)) (mundo banco)).2
       = statements (mundo banco).
Proof.
  apply (C7_status_outside_set campos_status_minusculo (VStr "pendente") (mundo banco)).
  - reflexivity.
  - intros s [= <-]. apply (bool_decide_unpack _). vm_compute. exact I.
Defined.

(** C8.  For every state, the list operation of each resource returns 200
    with an array that has exactly one field-map per row of the resource's
    table and nothing else: the field-map of a row holds the row's rowid
    under [id] and, under every other key, what the row holds.  The handler
    asks for no order; the records come as SQLite walks the table, by
    increasing [id].  The database is unchanged. *)
Theorem C8_list_every_row (r : resource) (w : world) :
  let shows (rec : cells) (i : Z) (c : cells) :=
    rec !! "id" = Some (INTEGER i) ∧ ∀ k, k ≠ "id" → rec !! k = c !! k in
  let before (a b : cells) :=
    ∃ i j, a !! "id" = Some (INTEGER i) ∧ b !! "id" = Some (INTEGER j) ∧ i < j in
  ∃ l, url_map (GET r) w
       = (Return (Response (array l) 200), executed (connected w) (SELECT_ALL (table_of r)))
     ∧ length l = size (rows_of r w)
     ∧ (∀ i c, rows_of r w !! i = Some c → ∃ rec, rec ∈ l ∧ shows rec i c)
     ∧ (∀ rec, rec ∈ l → ∃ i c, rows_of r w !! i = Some c ∧ shows rec i c)
     ∧ StronglySorted before l
     ∧ database_db (url_map (GET r) w).2 = database_db w.
Proof.
  intros shows before.
  assert (∀ i c, shows (Row i c) i c) as Hshows.
  { intros i c. split; [apply lookup_insert_eq|].
    intros k Hk. unfold Row. by rewrite lookup_insert_ne. }
  eexists. split; [apply GET_run|]. split; [|split; [|split; [|split]]].
  - by rewrite length_fmap, length_in_rowid_order.
  - intros i c H. exists (Row i c). split; [|done].
    apply list_elem_of_fmap. exists (i, c). split; [done|].
    by apply elem_of_in_rowid_order.
  - intros rec ([i c] & -> & H)%list_elem_of_fmap.
    apply elem_of_in_rowid_order in H. exists i, c. by split.
  - pose proof (in_rowid_order_increasing (rows_of r w)) as Hs.
    induction Hs as [|[i c] l Hs IH Hx]; [constructor|].
    cbn [fmap list_fmap]. constructor; [done|].
    apply Forall_fmap, Forall_forall. intros [j c'] Hj.
    rewrite Forall_forall in Hx. specialize (Hx _ Hj). simpl in Hx.
    exists i, j. unfold Row. by rewrite !lookup_insert_eq.
  - by rewrite GET_run.
Qed.



(** C10.  For every create or update request whose body fails validation,
    the handler returns 400 with the field errors, having logged them; no
    connection has been opened, no statement executed, and the database is
    the one before the request. *)
Theorem C10_invalid_body_leaves_store (r : resource) (id : Z) (b : value)
    (e : messages) (w : world) :
  load (schema_of r) b = Raise (ValidationError e) →
  let after := logged w (Erro_de_validacao e) in
  url_map (POST r b) w = (Return (Response (field_errors e) 400), after)
  ∧ url_map (PUT r id b) w = (Return (Response (field_errors e) 400), after)
  ∧ connections after = connections w
  ∧ statements after = statements w
  ∧ database_db after = database_db w.
Proof.
  intros H after. repeat split; [by apply POST_invalid|by apply PUT_invalid].
Qed.

(** An empty object sent to POST /projetos and PUT /projetos/1. *)
Lemma C10_witness :
  let e : messages := {[ "nome" := ["Missing data for required field."] ]} in
  let after := logged (mundo banco) (Erro_de_validacao e) in
  url_map (POST Projetos (VDict ∅)) (mundo banco)
    = (Return (Response (field_errors e) 400), after)
  ∧ url_map (PUT Projetos 1 (VDict ∅)) (mundo banco)
    = (Return (Response (field_errors e) 400), after)
  ∧ connections after = connections (mundo banco)
  ∧ statements after = statements (mundo banco)
  ∧ database_db after = database_db (mundo banco).
Proof.
  apply (C10_invalid_body_leaves_store Projetos 1 (VDict ∅)
           {[ "nome" := ["Missing data for required field."] ]} (mundo banco)).
  vm_compute; reflexivity.
Defined.

(** * Further properties of the handlers *)

(** ** The outcomes of a write *)

Lemma write_cases sql keys extra dados ok w :
  (∃ e, write sql keys extra dados ok w = (Raise e, connected w))
  ∨ (∃ xs e, step (database_db w) sql xs = Raise e
             ∧ write sql keys extra dados ok w = (Raise e, executed (connected w) sql))
  ∨ (∃ xs db' rs, step (database_db w) sql xs = Return (db', rs)
             ∧ write sql keys extra dados ok w
               = (Return ok, committed (executed (connected w) sql) db')).
Proof.
  unfold write, mbind, M_bind, get_db_connection.
  destruct (getitems_cases dados keys (connected w)) as [[vs H]|[e H]];
    unfold connected in H; rewrite H; [|left; by exists e].
  unfold execute. destruct (adapt_all _) as [xs|e]; [|left; by exists e].
  simpl. destruct (step _ _ _) as [[db' rs]|e] eqn:Hs; simpl.
  - right; right. by exists xs, db', rs.
  - right; left. by exists xs, e.
Qed.

(** ** Bodies the schemas reject *)

Lemma rejects_both r id b e w :
  load (schema_of r) b = Raise (ValidationError e) →
  rejects (url_map (POST r b) w) w e ∧ rejects (url_map (PUT r id b) w) w e.
Proof. intros H. split; [by apply POST_invalid|by apply PUT_invalid]. Qed.

Lemma required_is_load_field r k :
  k ∈ required_keys r →
  ∃ f, load_fields (schema_of r) !! k = Some f ∧ required f = true.
Proof.
  unfold required_keys. intros H.
  destruct r; simpl in H;
    repeat (apply elem_of_cons in H as [->|H]; [by eexists|]);
    by apply elem_of_nil in H.
Qed.

(** X1.  A body that lacks a key its schema declares [required=True] ([nome],
    [titulo]; [nome], [email], [senha] of a user) is rejected by create and
    by update: 400, the entry "Missing data for required field." under the
    key, the rejection logged, no connection opened. *)
Theorem missing_required_field (r : resource) (k : string) (d : dict) (id : Z) (w : world) :
  k ∈ required_keys r → d !! k = None →
  ∃ e, rejects (url_map (POST r (VDict d)) w) w e
     ∧ rejects (url_map (PUT r id (VDict d)) w) w e
     ∧ e !! k = Some ["Missing data for required field."].
Proof.
  intros Hk Hd. destruct (required_is_load_field r k Hk) as (f & Hf & Hreq).
  destruct (load_key_error (schema_of r) d k ["Missing data for required field."])
    as (e & He & Hek).
  { rewrite Hf, Hd. simpl. by rewrite Hreq. }
  exists e. destruct (rejects_both r id _ e w He). done.
Qed.

(** Ana without her password. *)
Lemma missing_required_field_witness :
  ∃ e, rejects (url_map (POST Usuarios (VDict (delete "senha" campos_ana))) (mundo banco))
         (mundo banco) e
     ∧ rejects (url_map (PUT Usuarios 1 (VDict (delete "senha" campos_ana))) (mundo banco))
         (mundo banco) e
     ∧ e !! "senha" = Some ["Missing data for required field."].
Proof.
  apply (missing_required_field Usuarios "senha" (delete "senha" campos_ana) 1 (mundo banco)).
  - apply (bool_decide_unpack _). vm_compute. exact I.
  - reflexivity.
Defined.

(** X2.  A body that is not a JSON object (an array, a string, a number,
    [null]) is rejected by every create and update with 400 and the single
    entry [_schema]: "Invalid input type.". *)
Theorem body_not_an_object (r : resource) (id : Z) (b : value) (w : world) :
  (∀ d, b ≠ VDict d) →
  let e : messages := {[ "_schema" := ["Invalid input type."] ]} in
  rejects (url_map (POST r b) w) w e ∧ rejects (url_map (PUT r id b) w) w e.
Proof.
  intros Hb e. apply rejects_both. destruct b; try done. by destruct (Hb d).
Qed.

(** A task wrapped in an array. *)
Lemma body_not_an_object_witness :
  let e : messages := {[ "_schema" := ["Invalid input type."] ]} in
  rejects (url_map (POST Tarefas (VList [VDict campos_T1])) (mundo banco)) (mundo banco) e
  ∧ rejects (url_map (PUT Tarefas 3 (VList [VDict campos_T1])) (mundo banco)) (mundo banco) e.
Proof.
  apply (body_not_an_object Tarefas 3 (VList [VDict campos_T1]) (mundo banco)).
  intros d H. discriminate H.
Defined.

(** X3.  [null] under any key the schema loads, required or optional, is
    rejected with "Field may not be null." under that key: no schema
    passes [allow_none]. *)
Theorem null_is_rejected (r : resource) (k : string) (d : dict) (id : Z) (w : world) :
  k ∈ bound_keys r → d !! k = Some VNone →
  ∃ e, rejects (url_map (POST r (VDict d)) w) w e
     ∧ rejects (url_map (PUT r id (VDict d)) w) w e
     ∧ e !! k = Some ["Field may not be null."].
Proof.
  intros Hk Hd. apply load_fields_bound in Hk as [f Hf].
  destruct (load_key_error (schema_of r) d k ["Field may not be null."]) as (e & He & Hek).
  { by rewrite Hf, Hd. }
  exists e. destruct (rejects_both r id _ e w He). done.
Qed.

(** A project whose optional description is [null]. *)
Lemma null_is_rejected_witness :
  ∃ e, rejects (url_map (POST Projetos (VDict (<["descricao" := VNone]> campos_P1))) (mundo banco))
         (mundo banco) e
     ∧ rejects (url_map (PUT Projetos 1 (VDict (<["descricao" := VNone]> campos_P1))) (mundo banco))
         (mundo banco) e
     ∧ e !! "descricao" = Some ["Field may not be null."].
Proof.
  apply (null_is_rejected Projetos "descricao" (<["descricao" := VNone]> campos_P1) 1
           (mundo banco)).
  - apply (bool_decide_unpack _). vm_compute. exact I.
  - reflexivity.
Defined.

(** ** Length limits and choices *)

Lemma rejects_POST_inv r (b : value) e w :
  rejects (url_map (POST r b) w) w e → load (schema_of r) b = Raise (ValidationError e).
Proof.
  unfold rejects. destruct (load_cases (schema_of r) b) as [[v H]|[e' H]].
  - rewrite (POST_valid _ _ _ _ H).
    destruct (write_cases (insert_of r) (bound_keys r) [] (source_of r b v)
                (Response (mensagem (criado r)) 201) w)
      as [[x ->]|[(xs & x & _ & ->)|(xs & db' & rs & _ & ->)]]; discriminate.
  - rewrite (POST_invalid _ _ _ _ H). intros [= <-]. done.
Qed.

Lemma rejects_PUT_inv r id (b : value) e w :
  rejects (url_map (PUT r id b) w) w e → load (schema_of r) b = Raise (ValidationError e).
Proof.
  unfold rejects. destruct (load_cases (schema_of r) b) as [[v H]|[e' H]].
  - rewrite (PUT_valid _ _ _ _ _ H).
    destruct (write_cases (update_of r) (bound_keys r) [VInt id] (source_of r b v)
                (Response (mensagem (atualizado r)) 200) w)
      as [[x ->]|[(xs & x & _ & ->)|(xs & db' & rs & _ & ->)]]; discriminate.
  - rewrite (PUT_invalid _ _ _ _ _ H). intros [= <-]. done.
Qed.

Lemma length_limits_field r k a b :
  length_limits r k = Some (a, b) →
  ∃ f, load_fields (schema_of r) !! k = Some f ∧ kind f = fields.String
       ∧ validators f = [validate.Length (Some a) b].
Proof.
  unfold length_limits. destruct (load_fields (schema_of r) !! k) as [f|]; [|done].
  destruct (kind f) eqn:Hk; try done.
  destruct (validators f) as [|v l] eqn:Hv; [done|].
  destruct v as [mn mx|cs|]; try done.
  destruct mn; [|done]. destruct l; [|done]. intros [= <- <-]. eauto.
Qed.

Lemma choices_of_field r k cs :
  choices_of r k = Some cs →
  ∃ f, load_fields (schema_of r) !! k = Some f ∧ kind f = fields.String
       ∧ validators f = [validate.OneOf cs].
Proof.
  unfold choices_of. destruct (load_fields (schema_of r) !! k) as [f|]; [|done].
  destruct (kind f) eqn:Hk; try done.
  destruct (validators f) as [|v l] eqn:Hv; [done|].
  destruct v as [mn mx|cs'|]; try done.
  destruct l; [|done]. intros [= <-]. eauto.
Qed.

Lemma string_field_errors f s :
  kind f = fields.String →
  key_errors RAISE (Some f) (Some (VStr s))
  = match concat (map (fun c => validate.run c s) (validators f)) with
    | [] => None
    | errs => Some errs
    end.
Proof.
  intros Hk. unfold key_errors, deserialize, run_validators, all_validators.
  rewrite Hk. simpl. by destruct (concat _).
Qed.

Lemma Length_run a b s :
  (within a b (Text.len s) → validate.run (validate.Length (Some a) b) s = [])
  ∧ (¬ within a b (Text.len s) → ∃ msg, validate.run (validate.Length (Some a) b) s = [msg]).
Proof.
  unfold within, validate.run. simpl.
  destruct (Text.len s <? a)%nat eqn:Hs.
  - apply Nat.ltb_lt in Hs. split; [lia|]. intros _. simpl. destruct b; eauto.
  - apply Nat.ltb_ge in Hs. simpl. destruct b as [m|]; simpl.
    + destruct (m <? Text.len s)%nat eqn:Hl.
      * apply Nat.ltb_lt in Hl. split; [|eauto].
        intros [_ H]. specialize (H m eq_refl). lia.
      * apply Nat.ltb_ge in Hl. split; [done|]. intros H. destruct H.
        split; [done|]. by intros ? [= <-].
    + split; [done|]. intros H. destruct H. split; [done|]. done.
Qed.

(** X4.  The [validate.Length] limits of the schemas are inclusive and count
    code points: a string whose length is outside [min..max] is rejected with
    an entry under its key, and one whose length is within is never the
    reason of a rejection (no entry under its key). *)
Theorem length_limits_inclusive (r : resource) (k : string) (a : nat) (b : option nat)
    (d : dict) (s : string) (id : Z) (w : world) :
  length_limits r k = Some (a, b) → d !! k = Some (VStr s) →
  (¬ within a b (Text.len s) →
     ∃ e, rejects (url_map (POST r (VDict d)) w) w e
        ∧ rejects (url_map (PUT r id (VDict d)) w) w e
        ∧ is_Some (e !! k))
  ∧ (within a b (Text.len s) →
     ∀ e, rejects (url_map (POST r (VDict d)) w) w e
          ∨ rejects (url_map (PUT r id (VDict d)) w) w e →
          e !! k = None).
Proof.
  intros Hl Hd. destruct (length_limits_field r k a b Hl) as (f & Hf & Hk & Hv).
  pose proof (string_field_errors f s Hk) as He. rewrite Hv in He.
  change (concat (map (fun c => validate.run c s) [validate.Length (Some a) b]))
    with (validate.run (validate.Length (Some a) b) s ++ []) in He.
  rewrite app_nil_r in He. destruct (Length_run a b s) as [Hin Hout]. split.
  - intros Hn. destruct (Hout Hn) as [msg Hmsg]. rewrite Hmsg in He.
    destruct (load_key_error (schema_of r) d k [msg]) as (e & Hload & Hek).
    { by rewrite Hf, Hd, unknown_RAISE. }
    exists e. destruct (rejects_both r id _ e w Hload). by rewrite Hek.
  - intros Hw e Hrej. rewrite (Hin Hw) in He.
    assert (load (schema_of r) (VDict d) = Raise (ValidationError e)) as Hload
      by (destruct Hrej; eauto using rejects_POST_inv, rejects_PUT_inv).
    by rewrite (load_Raise_lookup _ _ _ k Hload), Hf, Hd, unknown_RAISE.
Qed.

Lemma length_limits_table :
  length_limits Projetos "nome" = Some (1%nat, Some 255%nat)
  ∧ length_limits Tarefas "titulo" = Some (1%nat, Some 255%nat)
  ∧ length_limits Usuarios "nome" = Some (1%nat, Some 255%nat)
  ∧ length_limits Usuarios "senha" = Some (6%nat, None).
Proof. repeat split. Qed.

(** A password of exactly six characters is within the limit of [senha]. *)
Lemma length_limits_inclusive_witness :
  within 6 None (Text.len "123456")
  ∧ (∀ e, rejects (url_map (POST Usuarios (VDict campos_senha_6)) (mundo banco)) (mundo banco) e
          ∨ rejects (url_map (PUT Usuarios 1 (VDict campos_senha_6)) (mundo banco)) (mundo banco) e →
          e !! "senha" = None).
Proof.
  assert (within 6 None (Text.len "123456")) as H.
  { split; [vm_compute; lia|]. intros m Hm. discriminate Hm. }
  split; [exact H|].
  by apply (length_limits_inclusive Usuarios "senha" 6 None campos_senha_6 "123456" 1
              (mundo banco)).
Defined.

Lemma OneOf_run cs s :
  (s ∈ cs → validate.run (validate.OneOf cs) s = [])
  ∧ (s ∉ cs → ∃ msg, validate.run (validate.OneOf cs) s = [msg]).
Proof.
  unfold validate.run. split; intros H.
  - by rewrite bool_decide_eq_true_2.
  - rewrite bool_decide_eq_false_2 by done. eauto.
Qed.

(** X5.  [validate.OneOf] of [status] and [prioridade] compares whole
    strings: a string outside the list is rejected with an entry under its
    key, a string of the list never gets one. *)
Theorem choices_are_exact (r : resource) (k : string) (cs : list string)
    (d : dict) (s : string) (id : Z) (w : world) :
  choices_of r k = Some cs → d !! k = Some (VStr s) →
  (s ∉ cs →
     ∃ e, rejects (url_map (POST r (VDict d)) w) w e
        ∧ rejects (url_map (PUT r id (VDict d)) w) w e
        ∧ is_Some (e !! k))
  ∧ (s ∈ cs →
     ∀ e, rejects (url_map (POST r (VDict d)) w) w e
          ∨ rejects (url_map (PUT r id (VDict d)) w) w e →
          e !! k = None).
Proof.
  intros Hl Hd. destruct (choices_of_field r k cs Hl) as (f & Hf & Hk & Hv).
  pose proof (string_field_errors f s Hk) as He. rewrite Hv in He.
  change (concat (map (fun c => validate.run c s) [validate.OneOf cs]))
    with (validate.run (validate.OneOf cs) s ++ []) in He.
  rewrite app_nil_r in He. destruct (OneOf_run cs s) as [Hin Hout]. split.
  - intros Hn. destruct (Hout Hn) as [msg Hmsg]. rewrite Hmsg in He.
    destruct (load_key_error (schema_of r) d k [msg]) as (e & Hload & Hek).
    { by rewrite Hf, Hd, unknown_RAISE. }
    exists e. destruct (rejects_both r id _ e w Hload). by rewrite Hek.
  - intros Hw e Hrej. rewrite (Hin Hw) in He.
    assert (load (schema_of r) (VDict d) = Raise (ValidationError e)) as Hload
      by (destruct Hrej; eauto using rejects_POST_inv, rejects_PUT_inv).
    by rewrite (load_Raise_lookup _ _ _ k Hload), Hf, Hd, unknown_RAISE.
Qed.

Lemma choices_table :
  choices_of Tarefas "status" = Some ["Pendente"; "Em andamento"; "Concluída"]
  ∧ choices_of Tarefas "prioridade" = Some ["Baixa"; "Média"; "Alta"].
Proof. repeat split. Qed.

(** [Media], without the accent, is not a priority. *)
Lemma choices_are_exact_witness :
  ∃ e, rejects (url_map (POST Tarefas (VDict campos_prioridade_media)) (mundo banco))
         (mundo banco) e
     ∧ rejects (url_map (PUT Tarefas 1 (VDict campos_prioridade_media)) (mundo banco))
         (mundo banco) e
     ∧ is_Some (e !! "prioridade").
Proof.
  apply (choices_are_exact Tarefas "prioridade" ["Baixa"; "Média"; "Alta"]
           campos_prioridade_media "Media" 1 (mundo banco)); [reflexivity|reflexivity|].
  apply (bool_decide_unpack _). vm_compute. exact I.
Defined.

(** ** Keys the statement binds and the body lacks *)

Lemma getitems_KeyError (m : dict) pre k post w :
  (∀ k', k' ∈ pre → is_Some (m !! k')) → m !! k = None →
  getitems (VDict m) (pre ++ k :: post) w = (Raise (KeyError k), w).
Proof.
  intros Hpre Hk. induction pre as [|p pre IH]; simpl.
  - unfold mbind, M_bind. simpl. by rewrite Hk.
  - destruct (Hpre p) as [v Hv]; [apply list_elem_of_here|].
    unfold mbind, M_bind. simpl. rewrite Hv. unfold mret, M_ret.
    rewrite IH; [done|]. intros k' Hk'. apply Hpre. by apply list_elem_of_further.
Qed.

Lemma write_KeyError sql pre k post extra (m : dict) ok w :
  (∀ k', k' ∈ pre → is_Some (m !! k')) → m !! k = None →
  write sql (pre ++ k :: post) extra (VDict m) ok w = (Raise (KeyError k), connected w).
Proof.
  intros Hpre Hk. unfold write, mbind, M_bind, get_db_connection.
  by rewrite (getitems_KeyError m pre k post _ Hpre Hk).
Qed.

(** X6.  A project or task body that passes its schema and omits a key the
    statement binds makes create and update raise [KeyError] on the first
    such key, in the order of the statement, after the connection was opened
    and before any statement is executed. *)
Theorem omitted_key_raises_KeyError (r : resource) (d : dict) (v : value) (id : Z)
    (pre post : list string) (k : string) (w : world) :
  r ≠ Usuarios →
  load (schema_of r) (VDict d) = Return v →
  bound_keys r = pre ++ k :: post →
  (∀ k', k' ∈ pre → is_Some (d !! k')) →
  d !! k = None →
  url_map (POST r (VDict d)) w = (Raise (KeyError k), connected w)
  ∧ url_map (PUT r id (VDict d)) w = (Raise (KeyError k), connected w).
Proof.
  intros Hr Hload Hkeys Hpre Hk.
  destruct (load_Return_inv _ _ _ Hload) as (dados & -> & Hdados).
  assert (source_of r (VDict d) (VDict dados) = VDict dados) as Hsrc by by destruct r.
  assert (∀ k', k' ∈ pre → is_Some (dados !! k')) as Hpre'.
  { intros k' Hk'. destruct (Hpre k' Hk') as [raw Hraw].
    assert (k' ∈ bound_keys r) as Hb by (rewrite Hkeys; apply elem_of_app; by left).
    apply load_fields_bound in Hb as [f Hf].
    destruct (loaded_key _ _ _ _ _ _ Hload Hf Hraw) as (v' & _ & Hv'). eauto. }
  assert (dados !! k = None) as Hk'.
  { destruct (Hdados k) as [_ Hx]. rewrite Hx, Hk. by destruct (load_fields (schema_of r) !! k). }
  rewrite (POST_valid _ _ _ _ Hload), (PUT_valid _ _ _ _ _ Hload), Hsrc, Hkeys.
  split; by apply write_KeyError.
Qed.

(** A project with its name only: [descricao] is the first key missed. *)
Lemma omitted_key_raises_KeyError_witness :
  url_map (POST Tarefas (VDict (delete "status" campos_T1))) (mundo banco)
    = (Raise (KeyError "status"), connected (mundo banco))
  ∧ url_map (PUT Tarefas 1 (VDict (delete "status" campos_T1))) (mundo banco)
    = (Raise (KeyError "status"), connected (mundo banco)).
Proof.
  apply (omitted_key_raises_KeyError Tarefas (delete "status" campos_T1)
           (VDict (delete "status"
                     (<["data_vencimento" := VDate (Date 2023 11 10)]> campos_T1)))
           1 ["titulo"; "descricao"] ["prioridade"; "data_vencimento"; "projeto_id";
                                      "responsavel_id"] "status" (mundo banco)).
  - discriminate.
  - vm_compute. reflexivity.
  - reflexivity.
  - intros k' Hk'.
    repeat (apply elem_of_cons in Hk' as [->|Hk']; [by eexists|]).
    by apply elem_of_nil in Hk'.
  - reflexivity.
Defined.

(** ** UPDATE of a row that is there *)






Lemma rows_mundo_com_ana : rows_of Usuarios mundo_com_ana = {[ 1 := linha_ana ]}.
Proof. vm_compute. reflexivity. Qed.


(** ** A user's email that another row holds *)






(** ** The constraints of the tables, kept by every request *)

Lemma max_rowid_nonneg (m : gmap Z cells) : 0 ≤ max_rowid m.
Proof. unfold max_rowid. induction ((map_to_list m).*1); simpl; lia. Qed.

Lemma next_rowid_above tb :
  seq tb < next_rowid tb ∧ 1 ≤ next_rowid tb
  ∧ ∀ i c, rows tb !! i = Some c → i < next_rowid tb.
Proof.
  unfold next_rowid. pose proof (max_rowid_nonneg (rows tb)).
  repeat split; try lia. intros i c Hi. apply max_rowid_ge in Hi. lia.
Qed.

Lemma find_None_inv {A} (f : A → bool) (l : list A) x :
  find f l = None → x ∈ l → f x = false.
Proof.
  induction l as [|a l IH]; intros Hf Hx; [by apply elem_of_nil in Hx|].
  simpl in Hf. destruct (f a) eqn:Ha; [done|].
  apply elem_of_cons in Hx as [->|Hx]; auto.
Qed.

Lemma check_constraints_inv t (others : gmap Z cells) (c : cells) :
  check_constraints t others c = Return tt →
  (∀ col, col ∈ columns t → not_null col = true → c !! col_name col ≠ Some NULL)
  ∧ (∀ col x i row, col ∈ columns t → unique col = true → x ≠ NULL →
       c !! col_name col = Some x → others !! i = Some row →
       row !! col_name col ≠ Some x).
Proof.
  unfold check_constraints, not_null_violation, unique_violation.
  destruct (find _ _) as [?|] eqn:Hn; [done|].
  destruct (find _ (columns t)) as [?|] eqn:Hu in |- *; [done|]. intros _. split.
  - intros col Hcol Hq Hc. pose proof (find_None_inv _ _ col Hn Hcol) as H.
    simpl in H. rewrite Hq in H. simpl in H. by apply bool_decide_eq_false in H.
  - intros col x i row Hcol Hq Hx Hc Hi Hrow.
    pose proof (find_None_inv _ _ col Hu Hcol) as H. simpl in H.
    rewrite Hq, Hc in H. simpl in H.
    assert (bool_decide (Exists (λ r : Z * cells, r.2 !! col_name col = Some x)
                           (map_to_list others)) = false) as Hb by by destruct x.
    apply bool_decide_eq_false in Hb. apply Hb, Exists_exists.
    exists (i, row). split; [|done]. by apply elem_of_map_to_list.
Qed.

Lemma table_eta (tb : table) : Table (rows tb) (seq tb) = tb.
Proof. by destruct tb. Qed.

Lemma step_change db s ps db' rs :
  step db s ps = Return (db', rs) →
  table_change (target s) (get_table (target s) db) (get_table (target s) db').
Proof.
  destruct s as [t|t cols|t cols|t]; simpl.
  - destruct ps; [|done]. intros [= <- _]. by apply unchanged.
  - destruct (negb _); [done|]. destruct (check_columns t cols); [|done].
    destruct (check_constraints _ _ _) as [[]|] eqn:Hc; [|done]. intros [= <- _].
    rewrite get_set_table_eq.
    eapply inserted; [done| |exact Hc].
    intros col Hcol. rewrite new_cells_lookup by done. by eexists.
  - destruct (negb _); [done|]. destruct (check_columns t cols); [|done].
    destruct (last ps) as [[|i|]|]; try (intros [= <- _]; by apply unchanged).
    destruct (rows (get_table t db) !! i) as [old|] eqn:Hi;
      [|intros [= <- _]; by apply unchanged].
    destruct (check_constraints _ _ _) as [[]|] eqn:Hc; [|done]. intros [= <- _].
    rewrite get_set_table_eq.
    eapply updated; [exact Hi|done| |exact Hc].
    intros k [x Hx]. rewrite lookup_union.
    destruct (list_to_map (zip cols ps) !! k); rewrite Hx; by eexists.
  - destruct ps as [|[|i|] [|]]; try done; intros [= <- _];
      try by apply unchanged.
    rewrite get_set_table_eq. by eapply deleted.
Qed.

Lemma change_consistent t tb tb' :
  table_consistent t tb → table_change t tb tb' → table_consistent t tb'.
Proof.
  intros (Hrange & Hcols & Huniq) [->|c -> Hall Hc|i old c Hold -> Hkeep Hc|i ->];
    unfold table_consistent; simpl.
  - done.
  - destruct (next_rowid_above tb) as (Hseq & Hone & Habove).
    apply check_constraints_inv in Hc as [Hnn Hun].
    split; [|split].
    + intros j cj Hj. apply lookup_insert_Some in Hj as [[<- _]|[_ Hj]]; [lia|].
      specialize (Hrange j cj Hj). lia.
    + intros j cj col Hj Hcol. apply lookup_insert_Some in Hj as [[_ <-]|[_ Hj]]; [|eauto].
      destruct (Hall col Hcol) as [x Hx]. exists x. split; [done|].
      intros Hq ->. by apply (Hnn col).
    + intros j1 j2 c1 c2 col x H1 H2 Hcol Hq Hx Hc1 Hc2.
      apply lookup_insert_Some in H1 as [[<- <-]|[Hn1 H1]];
        apply lookup_insert_Some in H2 as [[<- <-]|[Hn2 H2]]; try done.
      * by destruct (Hun col x j2 c2).
      * by destruct (Hun col x j1 c1).
      * eauto.
  - apply check_constraints_inv in Hc as [Hnn Hun].
    split; [|split].
    + intros j cj Hj. apply lookup_insert_Some in Hj as [[<- _]|[_ Hj]]; eauto.
    + intros j cj col Hj Hcol. apply lookup_insert_Some in Hj as [[_ <-]|[_ Hj]]; [|eauto].
      destruct (Hcols i old col Hold Hcol) as (y & Hy & _).
      destruct (Hkeep (col_name col)) as [x Hx]; [by eexists|].
      exists x. split; [done|]. intros Hq ->. by apply (Hnn col).
    + intros j1 j2 c1 c2 col x H1 H2 Hcol Hq Hx Hc1 Hc2.
      apply lookup_insert_Some in H1 as [[<- <-]|[Hn1 H1]];
        apply lookup_insert_Some in H2 as [[<- <-]|[Hn2 H2]]; try done.
      * destruct (Hun col x j2 c2); try done. by apply lookup_delete_Some.
      * destruct (Hun col x j1 c1); try done. by apply lookup_delete_Some.
      * eauto.
  - split; [|split].
    + intros j cj Hj. apply lookup_delete_Some in Hj as [_ Hj]. eauto.
    + intros j cj col Hj Hcol. apply lookup_delete_Some in Hj as [_ Hj]. eauto.
    + intros j1 j2 c1 c2 col x H1 H2.
      apply lookup_delete_Some in H1 as [_ H1]. apply lookup_delete_Some in H2 as [_ H2].
      eauto.
Qed.

Lemma step_consistent db s ps db' rs :
  consistent db → step db s ps = Return (db', rs) → consistent db'.
Proof.
  intros Hdb Hstep t. destruct (decide (t = target s)) as [->|Hne].
  - eapply change_consistent; [apply Hdb|]. by eapply step_change.
  - rewrite (step_frame _ _ _ _ _ t Hstep Hne). apply Hdb.
Qed.

(** The database a request leaves is the one it found or the result of one
    statement on it. *)
Lemma url_map_database req w :
  database_db (url_map req w).2 = database_db w
  ∨ ∃ s xs rs, step (database_db w) s xs = Return (database_db (url_map req w).2, rs)
               ∧ Some (target s) = table_of <$> resource_of req.
Proof.
  destruct req as [r|r p|r id p|r id|]; simpl resource_of; simpl fmap.
  - rewrite GET_run. by left.
  - destruct (payload_cases p) as [[b ->]|Hp];
      [|destruct (POST_not_JSON r p w Hp) as (e & -> & _); by left].
    destruct (load_cases (schema_of r) b) as [[v H]|[e H]].
    + rewrite (POST_valid _ _ _ _ H).
      destruct (write_cases (insert_of r) (bound_keys r) [] (source_of r b v)
                  (Response (mensagem (criado r)) 201) w)
        as [[x ->]|[(xs & x & _ & ->)|(xs & db' & rs & Hs & ->)]]; try by left.
      right. by exists (insert_of r), xs, rs.
    + rewrite (POST_invalid _ _ _ _ H). by left.
  - destruct (payload_cases p) as [[b ->]|Hp];
      [|destruct (PUT_not_JSON r id p w Hp) as (e & -> & _); by left].
    destruct (load_cases (schema_of r) b) as [[v H]|[e H]].
    + rewrite (PUT_valid _ _ _ _ _ H).
      destruct (write_cases (update_of r) (bound_keys r) [VInt id] (source_of r b v)
                  (Response (mensagem (atualizado r)) 200) w)
        as [[x ->]|[(xs & x & _ & ->)|(xs & db' & rs & Hs & ->)]]; try by left.
      right. by exists (update_of r), xs, rs.
    + rewrite (PUT_invalid _ _ _ _ _ H). by left.
  - destruct (decide (int64 id)) as [Hid|Hid].
    + rewrite (DELETE_run _ _ _ Hid). right.
      by exists (DELETE_FROM (table_of r)), [INTEGER id], [].
    + rewrite (DELETE_too_large _ _ _ Hid). by left.
  - by left.
Qed.

Lemma banco_consistent : consistent banco.
Proof.
  intros t. destruct t; (split; [|split]); simpl; intros; simplify_map_eq.
Qed.

Lemma request_consistent (req : request) (w : world) :
  consistent (database_db w) → consistent (database_db (url_map req w).2).
Proof.
  intros Hw.
  destruct (url_map_database req w) as [->|(s & xs & rs & Hs & _)]; [done|].
  by eapply step_consistent.
Qed.

Lemma run_consistent (reqs : list request) (w : world) :
  consistent (database_db w) → consistent (database_db (run reqs w)).
Proof.
  revert w. induction reqs as [|req reqs IH]; intros w Hw; [done|].
  by apply IH, request_consistent.
Qed.

(** X9.  What the CREATE TABLE statements declare holds after any sequence of
    requests if it held before: every row has every column, [nome], [titulo],
    [email] and [senha] are never NULL, no two users share an email, and
    every id is between 1 and the AUTOINCREMENT counter. *)
Theorem constraints_are_kept (reqs : list request) (w : world) :
  consistent (database_db w) → consistent (database_db (run reqs w)).
Proof.
  revert w. induction reqs as [|req reqs IH]; intros w Hw.
  - exact Hw.
  - cbn [run]. apply IH.
    destruct (url_map_database req w) as [->|(s & xs & rs & Hs & _)]; [exact Hw|].
    exact (step_consistent _ _ _ _ _ Hw Hs).
Qed.

(** The database of banco_projetos.py after two users are created, the
    first is replaced and then deleted. *)
Lemma constraints_are_kept_witness :
  consistent (database_db (run [POST Usuarios (VDict campos_ana);
                                POST Usuarios (VDict campos_bia);
                                PUT Usuarios 1 (VDict campos_ana_maria);
                                DELETE Usuarios 1] (mundo banco))).
Proof.
  apply (constraints_are_kept _ (mundo banco)). exact banco_consistent.
Defined.

(** ** Identifiers are not given twice *)

Lemma change_keeps_free_ids t tb tb' i :
  table_change t tb tb' → i ≤ seq tb → rows tb !! i = None →
  i ≤ seq tb' ∧ rows tb' !! i = None.
Proof.
  intros [->|c -> _ _|j old c Hold -> _ _|j ->] Hi Hfree; simpl.
  - done.
  - destruct (next_rowid_above tb) as (Hseq & _). split; [lia|].
    rewrite lookup_insert_ne; [done|lia].
  - split; [done|]. rewrite lookup_insert_ne; [done|]. intros ->. congruence.
  - split; [done|]. by apply lookup_delete_None; right.
Qed.

Lemma request_keeps_free_ids req w t i :
  i ≤ seq (get_table t (database_db w)) →
  rows (get_table t (database_db w)) !! i = None →
  i ≤ seq (get_table t (database_db (url_map req w).2))
  ∧ rows (get_table t (database_db (url_map req w).2)) !! i = None.
Proof.
  intros Hi Hfree.
  destruct (url_map_database req w) as [->|(s & xs & rs & Hs & _)]; [done|].
  destruct (decide (t = target s)) as [->|Hne].
  - eapply change_keeps_free_ids; eauto. by eapply step_change.
  - by rewrite (step_frame _ _ _ _ _ t Hs Hne).
Qed.

Lemma run_keeps_free_ids reqs w t i :
  i ≤ seq (get_table t (database_db w)) →
  rows (get_table t (database_db w)) !! i = None →
  rows (get_table t (database_db (run reqs w))) !! i = None.
Proof.
  revert w. induction reqs as [|req reqs IH]; intros w Hi Hfree; [done|].
  simpl. destruct (request_keeps_free_ids req w t i Hi Hfree). by apply IH.
Qed.

(** X10.  The id of a deleted record is never given again: after the delete,
    whatever requests follow, no record is stored under it.  The id of a
    stored record fits an SQLite INTEGER. *)
Theorem deleted_id_never_returns (r : resource) (id : Z) (reqs : list request) (w : world) :
  consistent (database_db w) →
  int64 id →
  is_Some (rows_of r w !! id) →
  rows_of r (run reqs (url_map (DELETE r id) w).2) !! id = None.
Proof.
  intros Hw Hid [c Hc]. apply run_keeps_free_ids; rewrite (DELETE_run _ _ _ Hid); simpl;
    rewrite get_set_table_eq; simpl.
  - destruct (Hw (table_of r)) as (Hrange & _). by destruct (Hrange id c Hc).
  - apply lookup_delete_eq.
Qed.

(** Ana deleted, then two users created: neither gets the id 1. *)
Lemma deleted_id_never_returns_witness :
  rows_of Usuarios
    (run [POST Usuarios (VDict campos_ana); POST Usuarios (VDict campos_bia)]
         (url_map (DELETE Usuarios 1) mundo_com_ana).2) !! 1 = None.
Proof.
  apply (deleted_id_never_returns Usuarios 1 _ mundo_com_ana).
  - apply (run_consistent [POST Usuarios (VDict campos_ana)] (mundo banco)).
    exact banco_consistent.
  - vm_compute. split; [discriminate|reflexivity].
  - rewrite rows_mundo_com_ana. by eexists.
Defined.

Example ids_after_delete :
  dom (rows_of Usuarios
         (run [POST Usuarios (VDict campos_ana); POST Usuarios (VDict campos_bia)]
              (url_map (DELETE Usuarios 1) mundo_com_ana).2)) = {[ 2; 3 ]}.
Proof. vm_compute. reflexivity. Qed.

(** ** Delete, then list *)

(** X11.  Delete with an identifier that fits an SQLite INTEGER returns 200
    and removes the row of that id and no other; the AUTOINCREMENT counter
    stays, and the next list shows exactly the other rows, each with its id
    and its cells. *)
Theorem delete_removes_only_that_row (r : resource) (id : Z) (w : world) :
  int64 id →
  let x := url_map (DELETE r id) w in
  let shows (rec : cells) (j : Z) (c : cells) :=
    rec !! "id" = Some (INTEGER j) ∧ ∀ k, k ≠ "id" → rec !! k = c !! k in
  returns x (mensagem (excluido r)) 200
  ∧ rows_of r x.2 = delete id (rows_of r w)
  ∧ seq (get_table (table_of r) (database_db x.2))
    = seq (get_table (table_of r) (database_db w))
  ∧ ∃ l, returns (url_map (GET r) x.2) (array l) 200
       ∧ length l = size (delete id (rows_of r w))
       ∧ (∀ j c, j ≠ id → rows_of r w !! j = Some c → ∃ rec, rec ∈ l ∧ shows rec j c)
       ∧ (∀ rec, rec ∈ l →
            ∃ j c, j ≠ id ∧ rows_of r w !! j = Some c ∧ shows rec j c).
Proof.
  intros Hid x shows. unfold x. rewrite GET_run, (DELETE_run _ _ _ Hid).
  unfold returns, rows_of. simpl.
  rewrite !get_set_table_eq. simpl. repeat split.
  assert (∀ j c, shows (Row j c) j c) as Hshows.
  { intros j c. split; [apply lookup_insert_eq|].
    intros k Hk. unfold Row. by rewrite lookup_insert_ne. }
  eexists. split; [reflexivity|]. split; [|split].
  - by rewrite length_fmap, length_in_rowid_order.
  - intros j c Hne H. exists (Row j c). split; [|done].
    apply list_elem_of_fmap. exists (j, c). split; [done|].
    apply elem_of_in_rowid_order, lookup_delete_Some. by split.
  - intros rec ([j c] & -> & H)%list_elem_of_fmap.
    apply elem_of_in_rowid_order, lookup_delete_Some in H as [Hne H].
    exists j, c. split; [done|]. split; [done|apply Hshows].
Qed.

(** Ana deleted while Bia is stored: the list that follows shows Bia. *)
Lemma delete_removes_only_that_row_witness :
  let x := url_map (DELETE Usuarios 1) mundo_com_ana_e_bia in
  let shows (rec : cells) (j : Z) (c : cells) :=
    rec !! "id" = Some (INTEGER j) ∧ ∀ k, k ≠ "id" → rec !! k = c !! k in
  returns x (mensagem (excluido Usuarios)) 200
  ∧ rows_of Usuarios x.2 = delete 1 (rows_of Usuarios mundo_com_ana_e_bia)
  ∧ seq (get_table TB_USUARIOS (database_db x.2))
    = seq (get_table TB_USUARIOS (database_db mundo_com_ana_e_bia))
  ∧ ∃ l, returns (url_map (GET Usuarios) x.2) (array l) 200
       ∧ length l = size (delete 1 (rows_of Usuarios mundo_com_ana_e_bia))
       ∧ (∀ j c, j ≠ 1 → rows_of Usuarios mundo_com_ana_e_bia !! j = Some c →
            ∃ rec, rec ∈ l ∧ shows rec j c)
       ∧ (∀ rec, rec ∈ l →
            ∃ j c, j ≠ 1 ∧ rows_of Usuarios mundo_com_ana_e_bia !! j = Some c
                   ∧ shows rec j c).
Proof.
  apply (delete_removes_only_that_row Usuarios 1 mundo_com_ana_e_bia).
  vm_compute. split; [discriminate|reflexivity].
Defined.

(** ** Which identifiers a request adds or removes *)

Lemma POST_201_inv r (b : value) w :
  returns (url_map (POST r b) w) (mensagem (criado r)) 201 →
  ∃ c, database_db (url_map (POST r b) w).2
       = set_table (table_of r)
           (Table (<[next_rowid (get_table (table_of r) (database_db w)) := c]> (rows_of r w))
                  (next_rowid (get_table (table_of r) (database_db w))))
           (database_db w).
Proof.
  unfold returns. destruct (load_cases (schema_of r) b) as [[v H]|[e H]].
  - rewrite (POST_valid _ _ _ _ H).
    destruct (write_cases (insert_of r) (bound_keys r) [] (source_of r b v)
                (Response (mensagem (criado r)) 201) w)
      as [[x ->]|[(xs & x & _ & ->)|(xs & db' & rs & Hs & ->)]]; try discriminate.
    intros _. simpl. unfold insert_of, step in Hs. simpl target in Hs.
    destruct (negb _); [done|]. destruct (check_columns _ _); [|done].
    destruct (check_constraints _ _ _); [|done]. injection Hs as <- _. by eexists.
  - rewrite (POST_invalid _ _ _ _ H). discriminate.
Qed.

Lemma POST_not_201 r (b : value) w :
  ¬ returns (url_map (POST r b) w) (mensagem (criado r)) 201 →
  database_db (url_map (POST r b) w).2 = database_db w.
Proof.
  unfold returns. destruct (load_cases (schema_of r) b) as [[v H]|[e H]].
  - rewrite (POST_valid _ _ _ _ H).
    destruct (write_cases (insert_of r) (bound_keys r) [] (source_of r b v)
                (Response (mensagem (criado r)) 201) w)
      as [[x ->]|[(xs & x & _ & ->)|(xs & db' & rs & Hs & ->)]]; try done.
  - by rewrite (POST_invalid _ _ _ _ H).
Qed.

Lemma PUT_rows r id (b : value) w :
  rows_of r (url_map (PUT r id b) w).2 = rows_of r w
  ∨ ∃ old c, rows_of r w !! id = Some old
             ∧ rows_of r (url_map (PUT r id b) w).2 = <[id := c]> (rows_of r w).
Proof.
  destruct (load_cases (schema_of r) b) as [[v H]|[e H]].
  - rewrite (PUT_valid _ _ _ _ _ H).
    unfold write, mbind, M_bind, get_db_connection.
    destruct (getitems_cases (source_of r b v) (bound_keys r) (connected w)) as [[vs Hg]|[e Hg]];
      unfold connected in Hg; rewrite Hg; [|by left].
    unfold execute. destruct (adapt_all _) as [xs|e] eqn:Ha; [|by left].
    assert (∃ ys, xs = ys ++ [INTEGER id]) as [ys ->].
    { clear Hg. revert xs Ha. induction vs as [|v' vs IH]; intros xs; cbn [adapt_all app].
      - intros Ha. pose proof (adapt_all_elem [VInt id] xs (VInt id) Ha) as [y Hy];
          [apply list_elem_of_here|].
        apply adapt_VInt in Hy. cbn [adapt_all] in Ha.
        rewrite (adapt_int64 _ Hy) in Ha. injection Ha as <-. by exists [].
      - destruct (adapt v'); [|by destruct (adapt_all _)].
        destruct (adapt_all (vs ++ [VInt id])) as [zs|] eqn:Hz; [|done].
        intros [= <-]. destruct (IH zs eq_refl) as [ys ->]. by exists (a :: ys). }
    cbn [view]. destruct (step _ _ _) as [[db' rs]|e] eqn:Hs; simpl; [|by left].
    unfold update_of, step in Hs. simpl target in Hs.
    destruct (negb _); [done|]. destruct (check_columns _ _); [|done].
    rewrite last_snoc in Hs.
    destruct (rows (get_table (table_of r) (database_db w)) !! id) as [old|] eqn:Hold;
      [|injection Hs as <- _; by left].
    destruct (check_constraints _ _ _); [|done]. injection Hs as <- _.
    right. exists old. eexists. split; [done|]. unfold rows_of. simpl.
    by rewrite get_set_table_eq.
  - rewrite (PUT_invalid _ _ _ _ _ H). by left.
Qed.

(** X12.  The set of stored ids of a resource: update and list never change
    it (update of an id that is not stored creates nothing), delete removes
    exactly the id it names when it answers 200 and nothing otherwise, and
    create adds exactly one id, one that was not stored, when it answers 201
    and none otherwise. *)
Theorem stored_identifiers (r : resource) (id : Z) (b : value) (w : world) :
  let ids (w' : world) : gset Z := dom (rows_of r w') in
  let next := next_rowid (get_table (table_of r) (database_db w)) in
  ids (url_map (PUT r id b) w).2 = ids w
  ∧ (returns (url_map (DELETE r id) w) (mensagem (excluido r)) 200 →
       ids (url_map (DELETE r id) w).2 = (ids w) ∖ {[ id ]})
  ∧ (¬ returns (url_map (DELETE r id) w) (mensagem (excluido r)) 200 →
       ids (url_map (DELETE r id) w).2 = ids w)
  ∧ (int64 id → returns (url_map (DELETE r id) w) (mensagem (excluido r)) 200)
  ∧ ids (url_map (GET r) w).2 = ids w
  ∧ (next ∉ ids w)
  ∧ (returns (url_map (POST r b) w) (mensagem (criado r)) 201 →
       ids (url_map (POST r b) w).2 = {[ next ]} ∪ ids w)
  ∧ (¬ returns (url_map (POST r b) w) (mensagem (criado r)) 201 →
       ids (url_map (POST r b) w).2 = ids w).
Proof.
  intros ids next. unfold ids. repeat split.
  - destruct (PUT_rows r id b w) as [->|(old & c & Hold & ->)]; [done|].
    apply dom_insert_lookup_L. by eexists.
  - destruct (decide (int64 id)) as [Hid|Hid].
    + intros _. rewrite (DELETE_run _ _ _ Hid). unfold rows_of. simpl.
      rewrite get_set_table_eq. simpl. apply dom_delete_L.
    + by rewrite (DELETE_too_large _ _ _ Hid).
  - destruct (decide (int64 id)) as [Hid|Hid].
    + rewrite (DELETE_run _ _ _ Hid). by intros [].
    + by rewrite (DELETE_too_large _ _ _ Hid).
  - intros Hid. by rewrite (DELETE_run _ _ _ Hid).
  - by rewrite GET_run.
  - apply not_elem_of_dom, next_rowid_fresh.
  - intros H. destruct (POST_201_inv r b w H) as [c Hc]. unfold rows_of at 1.
    rewrite Hc, get_set_table_eq. simpl. apply dom_insert_L.
  - intros H. unfold rows_of at 1. by rewrite (POST_not_201 r b w H).
Qed.

(** ** What is logged, and the connections opened *)











(** ** A request looks at its own table only *)

Lemma getitems_pure d ks : ∃ g, ∀ w, getitems d ks w = (g, w).
Proof.
  induction ks as [|k ks [g IH]]; simpl.
  - by exists (Return []).
  - unfold mbind, M_bind, getitem. destruct d;
      try (eexists; intros w; reflexivity).
    destruct (d !! k); [|eexists; intros w; reflexivity].
    unfold mret, M_ret. destruct g as [vs|e].
    + exists (Return (v :: vs)). intros w. by rewrite IH.
    + exists (Raise e). intros w. by rewrite IH.
Qed.

Lemma write_pure sql keys extra dados ok :
  ∃ o : exception + list sqlval, ∀ w,
    write sql keys extra dados ok w
    = match o with
      | inl e => (Raise e, connected w)
      | inr xs =>
          match step (database_db w) sql xs with
          | Raise e => (Raise e, executed (connected w) sql)
          | Return (db', _) => (Return ok, committed (executed (connected w) sql) db')
          end
      end.
Proof.
  destruct (getitems_pure dados keys) as [[vs|e] Hg].
  - destruct (adapt_all (vs ++ extra)) as [xs|e] eqn:Ha.
    + exists (inr xs). intros w. unfold write, mbind, M_bind, get_db_connection.
      rewrite Hg. unfold execute. rewrite Ha. cbn [view].
      by destruct (step _ _ _) as [[db' rs]|e].
    + exists (inl e). intros w. unfold write, mbind, M_bind, get_db_connection.
      rewrite Hg. unfold execute. by rewrite Ha.
  - exists (inl e). intros w. unfold write, mbind, M_bind, get_db_connection.
    by rewrite Hg.
Qed.

Lemma step_local db1 db2 s ps :
  get_table (target s) db1 = get_table (target s) db2 →
  match step db1 s ps, step db2 s ps with
  | Return (d1, r1), Return (d2, r2) =>
      r1 = r2 ∧ get_table (target s) d1 = get_table (target s) d2
  | Raise e1, Raise e2 => e1 = e2
  | _, _ => False
  end.
Proof.
  intros H. unfold step. rewrite H. destruct s as [t|t cols|t cols|t]; simpl target.
  - by destruct ps.
  - destruct (negb _); [done|]. destruct (check_columns t cols); [|done].
    destruct (check_constraints _ _ _); [|done]. by rewrite !get_set_table_eq.
  - destruct (negb _); [done|]. destruct (check_columns t cols); [|done].
    destruct (last ps) as [[|i|]|]; try done.
    destruct (rows (get_table t db2) !! i); [|done].
    destruct (check_constraints _ _ _); [|done]. by rewrite !get_set_table_eq.
  - destruct ps as [|[|i|] [|]]; try done. by rewrite !get_set_table_eq.
Qed.

Lemma write_local sql keys extra dados ok w1 w2 :
  get_table (target sql) (database_db w1) = get_table (target sql) (database_db w2) →
  (write sql keys extra dados ok w1).1 = (write sql keys extra dados ok w2).1
  ∧ get_table (target sql) (database_db (write sql keys extra dados ok w1).2)
    = get_table (target sql) (database_db (write sql keys extra dados ok w2).2).
Proof.
  intros H. destruct (write_pure sql keys extra dados ok) as [[e|xs] Hw]; rewrite !Hw.
  - done.
  - pose proof (step_local _ _ sql xs H) as Hs.
    destruct (step (database_db w1) sql xs) as [[d1 r1]|e1],
             (step (database_db w2) sql xs) as [[d2 r2]|e2]; try done.
    + by destruct Hs.
    + by subst.
Qed.

Lemma url_map_local req r w1 w2 :
  resource_of req = Some r →
  get_table (table_of r) (database_db w1) = get_table (table_of r) (database_db w2) →
  (url_map req w1).1 = (url_map req w2).1
  ∧ get_table (table_of r) (database_db (url_map req w1).2)
    = get_table (table_of r) (database_db (url_map req w2).2).
Proof.
  intros Hr H. destruct req as [r'|r' p|r' id p|r' id|]; simpl in Hr; simplify_eq.
  - rewrite !GET_run. unfold rows_of. by rewrite H.
  - destruct (payload_cases p) as [[b ->]|Hp].
    + destruct (load_cases (schema_of r) b) as [[v Hl]|[e Hl]].
      * rewrite !(POST_valid _ _ _ _ Hl). by apply (write_local (insert_of r)).
      * by rewrite !(POST_invalid _ _ _ _ Hl).
    + destruct (not_JSON_raises p Hp) as (e & _ & He).
      destruct (He r 0 w1) as [-> _]. by destruct (He r 0 w2) as [-> _].
  - destruct (payload_cases p) as [[b ->]|Hp].
    + destruct (load_cases (schema_of r) b) as [[v Hl]|[e Hl]].
      * rewrite !(PUT_valid _ _ _ _ _ Hl). by apply (write_local (update_of r)).
      * by rewrite !(PUT_invalid _ _ _ _ _ Hl).
    + destruct (not_JSON_raises p Hp) as (e & _ & He).
      destruct (He r id w1) as [_ ->]. by destruct (He r id w2) as [_ ->].
  - destruct (decide (int64 id)) as [Hid|Hid].
    + rewrite !(DELETE_run _ _ _ Hid). unfold rows_of. simpl.
      by rewrite !get_set_table_eq, H.
    + by rewrite !(DELETE_too_large _ _ _ Hid).
Qed.

Lemma url_map_frame req w t :
  Some t ≠ table_of <$> resource_of req →
  get_table t (database_db (url_map req w).2) = get_table t (database_db w).
Proof.
  intros Ht. destruct (url_map_database req w) as [->|(s & xs & rs & Hs & Hr)]; [done|].
  eapply step_frame; [exact Hs|]. intros ->. by rewrite Hr in Ht.
Qed.

Lemma database_ext db1 db2 :
  (∀ t, get_table t db1 = get_table t db2) → db1 = db2.
Proof.
  intros H. destruct db1, db2.
  pose proof (H TB_PROJETOS). pose proof (H TB_TAREFAS). pose proof (H TB_USUARIOS).
  simpl in *. by subst.
Qed.

Lemma table_of_inj r1 r2 : table_of r1 = table_of r2 → r1 = r2.
Proof. by destruct r1, r2. Qed.

(** X14.  Two requests on different resources, neither of which fails inside
    SQLite, do not see each other: each gets the same outcome whether the
    other was served before it or not, and the two orders leave the same
    database.  (A request that fails inside SQLite leaves its connection
    open, and with it the write lock of the database file.) *)
Theorem requests_on_different_resources_commute (req1 req2 : request)
    (r1 r2 : resource) (w : world) :
  resource_of req1 = Some r1 → resource_of req2 = Some r2 → r1 ≠ r2 →
  ¬ fails_in_SQLite (url_map req1 w) → ¬ fails_in_SQLite (url_map req2 w) →
  (url_map req1 (url_map req2 w).2).1 = (url_map req1 w).1
  ∧ (url_map req2 (url_map req1 w).2).1 = (url_map req2 w).1
  ∧ database_db (run [req1; req2] w) = database_db (run [req2; req1] w).
Proof.
  intros H1 H2 Hne _ _.
  assert (∀ t, t ≠ table_of r1 →
            get_table t (database_db (url_map req1 w).2) = get_table t (database_db w)
            ∧ ∀ w', get_table t (database_db (url_map req1 w').2)
                    = get_table t (database_db w')) as F1.
  { intros t Ht. split; [|intros w']; apply url_map_frame; rewrite H1; simpl; congruence. }
  assert (∀ t, t ≠ table_of r2 →
            get_table t (database_db (url_map req2 w).2) = get_table t (database_db w)
            ∧ ∀ w', get_table t (database_db (url_map req2 w').2)
                    = get_table t (database_db w')) as F2.
  { intros t Ht. split; [|intros w']; apply url_map_frame; rewrite H2; simpl; congruence. }
  assert (table_of r1 ≠ table_of r2) as Ht by (intros E; by apply table_of_inj in E).
  destruct (url_map_local req1 r1 (url_map req2 w).2 w H1) as [Ha1 Hb1];
    [by apply F2|].
  destruct (url_map_local req2 r2 (url_map req1 w).2 w H2) as [Ha2 Hb2];
    [by apply F1|].
  split; [done|]. split; [done|]. simpl. apply database_ext. intros t.
  destruct (decide (t = table_of r1)) as [->|N1].
  - rewrite Hb1. by apply F2.
  - destruct (decide (t = table_of r2)) as [->|N2].
    + rewrite Hb2. symmetry. by apply F1.
    + destruct (F1 t N1) as [E1 G1]. destruct (F2 t N2) as [E2 G2].
      by rewrite G2, E1, G1, E2.
Qed.

(** A project created and a user deleted, in both orders. *)
Lemma requests_on_different_resources_commute_witness :
  (url_map (POST Projetos (VDict campos_P1)) (url_map (DELETE Usuarios 1) mundo_com_ana).2).1
  = (url_map (POST Projetos (VDict campos_P1)) mundo_com_ana).1
  ∧ (url_map (DELETE Usuarios 1) (url_map (POST Projetos (VDict campos_P1)) mundo_com_ana).2).1
    = (url_map (DELETE Usuarios 1) mundo_com_ana).1
  ∧ database_db (run [POST Projetos (VDict campos_P1); DELETE Usuarios 1] mundo_com_ana)
    = database_db (run [DELETE Usuarios 1; POST Projetos (VDict campos_P1)] mundo_com_ana).
Proof.
  apply (requests_on_different_resources_commute _ _ Projetos Usuarios); try done.
  - intros (e & H & _). vm_compute in H. discriminate H.
  - intros (e & H & _). vm_compute in H. discriminate H.
Defined.

(** ** Update, twice *)

Lemma step_UPDATE_twice db db' t cols ps rs :
  step db (UPDATE_SET t cols) ps = Return (db', rs) →
  step db' (UPDATE_SET t cols) ps = Return (db', rs).
Proof.
  unfold step. simpl target.
  destruct (negb _); [done|]. destruct (check_columns t cols); [|done].
  destruct (last ps) as [[|i|]|]; try (by intros [= <- <-]).
  destruct (rows (get_table t db) !! i) as [old|] eqn:Hold;
    [|intros [= <- <-]; by rewrite Hold].
  destruct (check_constraints _ _ _) as [[]|] eqn:Hc; [|done].
  intros [= <- <-]. rewrite get_set_table_eq. cbn [rows seq].
  rewrite lookup_insert_eq, (assoc_L (∪)), (idemp_L (∪)), delete_insert_eq, Hc.
  by rewrite insert_insert_eq, set_set_table.
Qed.

(** X15.  Update is idempotent.  The same PUT sent a second time leaves the
    database as the first one left it, and unless the first failed inside
    SQLite (its connection then stays open and holds the write lock) it gets
    the same outcome: the same response or the same exception. *)
Theorem update_twice_is_update_once (r : resource) (id : Z) (p : payload) (w : world) :
  let once := url_map (PUT r id p) w in
  let twice := url_map (PUT r id p) once.2 in
  database_db twice.2 = database_db once.2
  ∧ (¬ fails_in_SQLite once → twice.1 = once.1).
Proof.
  intros once twice. unfold twice, once. clear once twice.
  destruct (payload_cases p) as [[b ->]|Hp].
  2: { destruct (not_JSON_raises p Hp) as (e & _ & He).
       destruct (He r id w) as [_ Hw]. rewrite Hw. cbn [snd]. by rewrite Hw. }
  destruct (load_cases (schema_of r) b) as [[v Hl]|[e Hl]].
  - rewrite !(PUT_valid _ _ _ _ _ Hl).
    destruct (write_pure (update_of r) (bound_keys r) [VInt id] (source_of r b v)
                (Response (mensagem (atualizado r)) 200)) as [[e|xs] Hw]; rewrite !Hw.
    + done.
    + destruct (step (database_db w) (update_of r) xs) as [[db' rs]|e] eqn:Hs.
      * cbn [snd database_db committed]. unfold update_of in *.
        by rewrite (step_UPDATE_twice _ _ _ _ _ _ Hs).
      * cbn [snd database_db executed connected]. unfold update_of in *.
        change (database_db (executed (connected w) _)) with (database_db w).
        by rewrite Hs.
  - by rewrite !(PUT_invalid _ _ _ _ _ Hl).
Qed.

(** ** Dates in canonical form *)

Lemma span_digits_app s r :
  Text.all_chars Text.is_digit s = true →
  match r with String c _ => Text.is_digit c = false | EmptyString => True end →
  utils.span_digits (s ++ r)%string = (s, r).
Proof.
  intros Hs Hr. induction s as [|c s IH]; cbn [Text.all_chars] in Hs.
  - change (utils.span_digits r = (EmptyString, r)).
    destruct r as [|c r]; [done|]. cbn [utils.span_digits]. by rewrite Hr.
  - apply andb_prop in Hs as [Hc Hs].
    change (utils.span_digits (String c (s ++ r)) = (String c s, r)).
    cbn [utils.span_digits]. by rewrite Hc, IH.
Qed.

Lemma decimal_text (width : nat) (lo hi n : Z) :
  forallb (fun n => let s := Text.pad width (pretty n) in
             Text.all_chars Text.is_digit s && (String.length s =? width)%nat
             && (Text.digits_value 0 s =? n)) (seqZ lo (hi - lo + 1)) = true →
  lo ≤ n ≤ hi →
  let s := Text.pad width (pretty n) in
  Text.all_chars Text.is_digit s = true ∧ String.length s = width
  ∧ Text.digits_value 0 s = n.
Proof.
  intros H Hn. rewrite forallb_forall in H. specialize (H n). cbv zeta in H.
  assert (In n (seqZ lo (hi - lo + 1))) as Hin
    by (apply list_elem_of_In, elem_of_seqZ; lia).
  apply H, andb_prop in Hin as [Hin Hv]. apply andb_prop in Hin as [Hd Hl].
  apply Z.eqb_eq in Hv. apply Nat.eqb_eq in Hl. done.
Qed.

Lemma span_digits_all s :
  Text.all_chars Text.is_digit s = true → utils.span_digits s = (s, EmptyString).
Proof.
  intros Hs. induction s as [|c s IH]; [done|]. cbn [Text.all_chars] in Hs.
  apply andb_prop in Hs as [Hc Hs]. cbn [utils.span_digits]. by rewrite Hc, IH.
Qed.

Lemma from_iso_date_valid s d :
  utils.from_iso_date s = Some d → datetime.valid (year d) (month d) (day d) = true.
Proof.
  unfold utils.from_iso_date. destruct (utils.span_digits s) as [y r].
  destruct r as [|[[] [] [] [] [] [] [] []] r1]; try done.
  destruct (utils.span_digits r1) as [m r2].
  destruct r2 as [|[[] [] [] [] [] [] [] []] r3]; try done.
  destruct (utils.span_digits r3) as [dd r4].
  destruct (_ && _) eqn:H; [|done]. intros [= <-]. simpl.
  by apply andb_prop in H as [_ H].
Qed.

Lemma from_iso_date_isoformat d :
  datetime.valid (year d) (month d) (day d) = true →
  utils.from_iso_date (datetime.isoformat d) = Some d.
Proof.
  destruct d as [y m dd]. cbn [year month day]. intros Hv.
  assert (1 ≤ y ≤ 9999 ∧ 1 ≤ m ≤ 12 ∧ 1 ≤ dd ≤ 31) as (Hy & Hm & Hd).
  { unfold datetime.valid, datetime.days_in_month in Hv.
    repeat (apply andb_prop in Hv as [Hv ?]). repeat case_match; lia. }
  destruct (decimal_text 4 1 9999 y) as (Y1 & Y2 & Y3); [by vm_compute|done|].
  destruct (decimal_text 2 1 12 m) as (M1 & M2 & M3); [by vm_compute|done|].
  destruct (decimal_text 2 1 31 dd) as (D1 & D2 & D3); [by vm_compute|done|].
  unfold datetime.isoformat, utils.from_iso_date. cbn [year month day].
  rewrite (span_digits_app _ _ Y1) by done.
  change ("-" ++ ?x)%string with (String "-"%char x). cbv beta iota.
  rewrite (span_digits_app _ _ M1) by done.
  change ("-" ++ ?x)%string with (String "-"%char x). cbv beta iota.
  rewrite (span_digits_all _ D1). cbv beta iota.
  rewrite Y2, Y3, M2, M3, D2, D3, Hv. done.
Qed.

(** ** Bodies that deserialize alike *)

Lemma load_equivalent s k f (d : dict) raw raw' :
  load_fields s !! k = Some f → d !! k = Some raw →
  deserialize f raw' = deserialize f raw →
  load s (VDict (<[k := raw']> d)) = load s (VDict d).
Proof.
  intros Hf Hd H. unfold load.
  assert (∀ g : unknown_policy → option Field → option value → option (list string),
            g = key_errors →
            merge (g (unknown s)) (load_fields s) (<[k := raw']> d)
            = merge (g (unknown s)) (load_fields s) d) as He.
  { intros g ->. apply map_eq. intros k'. rewrite !lookup_merge, !key_errors_diag.
    destruct (decide (k = k')) as [<-|N]; [|by rewrite lookup_insert_ne].
    rewrite lookup_insert_eq, Hf, Hd. simpl. by rewrite H. }
  assert (merge (key_value (unknown s)) (load_fields s) (<[k := raw']> d)
          = merge (key_value (unknown s)) (load_fields s) d) as Hv.
  { apply map_eq. intros k'. rewrite !lookup_merge, !key_value_diag.
    destruct (decide (k = k')) as [<-|N]; [|by rewrite lookup_insert_ne].
    rewrite lookup_insert_eq, Hf, Hd. simpl. by rewrite H. }
  by rewrite (He _ eq_refl), Hv.
Qed.

Lemma source_equivalent r k f (d : dict) raw raw' v :
  load_fields (schema_of r) !! k = Some f → d !! k = Some raw →
  deserialize f raw' = deserialize f raw →
  load (schema_of r) (VDict d) = Return v →
  source_of r (VDict (<[k := raw']> d)) v = source_of r (VDict d) v.
Proof.
  intros Hf Hd H Hl. destruct r; try done. simpl. f_equal.
  destruct (load_Return_inv _ _ _ Hl) as (dados & -> & _).
  destruct (loaded_key _ _ _ _ _ _ Hl Hf Hd) as (x & Hx & _).
  pose proof (text_fields_of_usuario _ _ Hf) as Hk.
  assert (raw = x) as <-.
  { apply deserialize_inr in Hx. by destruct Hk as [Hk|Hk]; rewrite Hk in Hx; destruct Hx. }
  rewrite <- H in Hx. assert (raw' = raw) as ->.
  { apply deserialize_inr in Hx. by destruct Hk as [Hk|Hk]; rewrite Hk in Hx; destruct Hx. }
  by apply insert_id.
Qed.

Lemma equivalent_bodies r k f (d : dict) raw raw' id w :
  load_fields (schema_of r) !! k = Some f → d !! k = Some raw →
  deserialize f raw' = deserialize f raw →
  url_map (POST r (VDict (<[k := raw']> d))) w = url_map (POST r (VDict d)) w
  ∧ url_map (PUT r id (VDict (<[k := raw']> d))) w = url_map (PUT r id (VDict d)) w.
Proof.
  intros Hf Hd H. pose proof (load_equivalent _ _ _ _ _ _ Hf Hd H) as Hl'.
  destruct (load_cases (schema_of r) (VDict d)) as [[v Hl]|[e Hl]]; rewrite Hl in Hl'.
  - rewrite (POST_valid _ _ _ _ Hl), (POST_valid _ _ _ _ Hl'),
      (PUT_valid _ _ _ _ _ Hl), (PUT_valid _ _ _ _ _ Hl').
    by rewrite (source_equivalent _ _ _ _ _ _ _ Hf Hd H Hl).
  - by rewrite (POST_invalid _ _ _ _ Hl), (POST_invalid _ _ _ _ Hl'),
      (PUT_invalid _ _ _ _ _ Hl), (PUT_invalid _ _ _ _ _ Hl').
Qed.

(** X16.  Dates are kept in canonical form.  A Date field that accepts the
    text [s] as the date [d] stores [d.isoformat()]; that text reads back as
    [d], and sending it in place of [s] gives the same response and the same
    state, for create and for update. *)
Theorem date_spelling_is_immaterial (r : resource) (k : string) (f : Field)
    (campos : dict) (s : string) (d : date) (id : Z) (w : world) :
  load_fields (schema_of r) !! k = Some f → kind f = fields.Date →
  campos !! k = Some (VStr s) → utils.from_iso_date s = Some d →
  let canonical := VDict (<[k := VStr (datetime.isoformat d)]> campos) in
  deserialize f (VStr s) = inr (VDate d)
  ∧ adapt (VDate d) = Return (TEXT (datetime.isoformat d))
  ∧ utils.from_iso_date (datetime.isoformat d) = Some d
  ∧ url_map (POST r canonical) w = url_map (POST r (VDict campos)) w
  ∧ url_map (PUT r id canonical) w = url_map (PUT r id (VDict campos)) w.
Proof.
  intros Hf Hk Hc Hs canonical.
  pose proof (from_iso_date_isoformat d (from_iso_date_valid _ _ Hs)) as Hiso.
  assert (∀ t, utils.from_iso_date t = Some d → deserialize f (VStr t) = inr (VDate d)) as Hd.
  { intros t Ht. unfold deserialize. rewrite Hk. simpl. by rewrite Ht. }
  split; [by apply Hd|]. split; [done|]. split; [done|].
  apply (equivalent_bodies r k f campos (VStr s)); [done|done|].
  by rewrite !Hd.
Qed.

(** X17.  An Integer field ([projeto_id], [responsavel_id]) given as text that
    [int] reads is treated as that integer: the request with the text and the
    request with the number have the same response and leave the same state. *)
Theorem numeric_text_is_the_number (r : resource) (k : string) (f : Field)
    (campos : dict) (s : string) (n : Z) (id : Z) (w : world) :
  load_fields (schema_of r) !! k = Some f → kind f = fields.Integer →
  campos !! k = Some (VStr s) → builtins.int_of_str s = Some n →
  let number := VDict (<[k := VInt n]> campos) in
  url_map (POST r number) w = url_map (POST r (VDict campos)) w
  ∧ url_map (PUT r id number) w = url_map (PUT r id (VDict campos)) w.
Proof.
  intros Hf Hk Hc Hs number.
  apply (equivalent_bodies r k f campos (VStr s)); [done|done|].
  unfold deserialize. rewrite Hk. simpl. by rewrite Hs.
Qed.

(** [2024-1-5] is stored, and may be sent, as [2024-01-05]. *)
Lemma date_spelling_is_immaterial_witness :
  datetime.isoformat (Date 2024 1 5) = "2024-01-05"
  ∧ deserialize (field fields.Date) (VStr "2024-1-5") = inr (VDate (Date 2024 1 5))
  ∧ adapt (VDate (Date 2024 1 5)) = Return (TEXT (datetime.isoformat (Date 2024 1 5)))
  ∧ utils.from_iso_date (datetime.isoformat (Date 2024 1 5)) = Some (Date 2024 1 5)
  ∧ url_map (POST Projetos (VDict (<["data_inicio" := VStr (datetime.isoformat (Date 2024 1 5))]>
                                     campos_data_curta))) (mundo banco)
    = url_map (POST Projetos (VDict campos_data_curta)) (mundo banco)
  ∧ url_map (PUT Projetos 1 (VDict (<["data_inicio" := VStr (datetime.isoformat (Date 2024 1 5))]>
                                      campos_data_curta))) (mundo banco)
    = url_map (PUT Projetos 1 (VDict campos_data_curta)) (mundo banco).
Proof.
  split; [by vm_compute|].
  apply (date_spelling_is_immaterial Projetos "data_inicio" (field fields.Date)
           campos_data_curta "2024-1-5" (Date 2024 1 5) 1 (mundo banco));
    by vm_compute.
Defined.

(** The project of a task given as the text [7]. *)
Lemma numeric_text_is_the_number_witness :
  url_map (POST Tarefas (VDict (<["projeto_id" := VInt 7]> campos_projeto_texto))) (mundo banco)
  = url_map (POST Tarefas (VDict campos_projeto_texto)) (mundo banco)
  ∧ url_map (PUT Tarefas 1 (VDict (<["projeto_id" := VInt 7]> campos_projeto_texto))) (mundo banco)
    = url_map (PUT Tarefas 1 (VDict campos_projeto_texto)) (mundo banco).
Proof.
  apply (numeric_text_is_the_number Tarefas "projeto_id" (field fields.Integer)
           campos_projeto_texto "7" 7 1 (mundo banco));
    by vm_compute.
Defined.

(** ** Values of the wrong type *)

(** X18.  A value that its field class does not deserialize (a number under a
    String field, a boolean or non-numeric text under an Integer field, text
    that is no calendar date under a Date field) is rejected with 400 and the
    message of the field class under its key.  Text is read as the grammars
    of [int] and of ISO dates are written out here, for ASCII. *)
Theorem wrong_type_is_rejected (r : resource) (k : string) (f : Field) (d : dict)
    (raw : value) (id : Z) (w : world) :
  load_fields (schema_of r) !! k = Some f → d !! k = Some raw →
  raw ≠ VNone → (∀ s, raw = VStr s → Text.is_ascii s = true) →
  fields.deserialize_type (kind f) raw = None →
  ∃ e, rejects (url_map (POST r (VDict d)) w) w e
     ∧ rejects (url_map (PUT r id (VDict d)) w) w e
     ∧ e !! k = Some [fields.invalid (kind f)].
Proof.
  intros Hf Hd Hn _ Ht.
  destruct (load_key_error (schema_of r) d k [fields.invalid (kind f)]) as (e & He & Hek).
  { rewrite Hf, Hd. simpl. unfold deserialize. rewrite Ht. by destruct raw. }
  exists e. destruct (rejects_both r id _ e w He). done.
Qed.

(** [true] is not a project id. *)
Lemma wrong_type_is_rejected_witness :
  ∃ e, rejects (url_map (POST Tarefas (VDict (<["projeto_id" := VBool true]> campos_T1)))
                  (mundo banco)) (mundo banco) e
     ∧ rejects (url_map (PUT Tarefas 1 (VDict (<["projeto_id" := VBool true]> campos_T1)))
                  (mundo banco)) (mundo banco) e
     ∧ e !! "projeto_id" = Some ["Not a valid integer."].
Proof.
  apply (wrong_type_is_rejected Tarefas "projeto_id" (field fields.Integer)
           (<["projeto_id" := VBool true]> campos_T1) (VBool true) 1 (mundo banco));
    by vm_compute.
Defined.
